(** * apimi: auction cache, name classifier and lore parser

    A shallow embedding of [app.py]: the paginated fetch with its retry
    budget ([AuctionService.get_auction_items]), the time-gated cache
    ([ArmorFilterService.refresh_data], [filter_items]), the name predicates
    and the lore parser ([extract_attributes_from_lore]), followed by the
    properties established about them. *)

From Stdlib Require Import Bool Arith ZArith List Ascii String Lia.
Import ListNotations.

Local Open Scope string_scope.
Local Open Scope list_scope.

(** ** Python strings

    A Python [str] is modelled as a [string] whose 8-bit characters are the
    code points U+0000..U+00FF, one character per code point; the section
    sign U+00A7 is therefore the single character 167. *)

Module PyStr.

(** [c.lower()] on one code point below 256: the upper-case letters of that
    range are A..Z and U+00C0..U+00DE without the multiplication sign. *)
Definition lower_char (c : ascii) : ascii :=
  let n := nat_of_ascii c in
  if (((65 <=? n) && (n <=? 90))
      || ((192 <=? n) && (n <=? 222) && negb (n =? 215)))%nat
  then ascii_of_nat (n + 32)
  else c.

(** [s.lower()] *)
Fixpoint lower (s : string) : string :=
  match s with
  | EmptyString => EmptyString
  | String c s' => String (lower_char c) (lower s')
  end.

(** [needle in hay]: some slice of [hay] equals [needle]. *)
Fixpoint str_in (needle hay : string) : bool :=
  String.prefix needle hay
  || match hay with
     | EmptyString => false
     | String _ hay' => str_in needle hay'
     end.

(** Truthiness of a string: the empty string is falsy. *)
Definition truthy (s : string) : bool :=
  match s with EmptyString => false | String _ _ => true end.

(** What "[hay] contains [needle] as a substring" means. *)
Definition Substring (needle hay : string) : Prop :=
  exists pre post, hay = (pre ++ needle ++ post)%string.

(** Case-insensitive containment: some slice of [hay] is [needle] up to the
    case of its letters. *)
Definition ContainsCI (hay needle : string) : Prop :=
  exists pre mid post,
    hay = (pre ++ mid ++ post)%string /\ lower mid = lower needle.

End PyStr.

(** ** Listings *)

Record AuctionItem : Type := mkAuctionItem {
  uuid : string;
  item_name : option string;   (* [None] is Python's [None] *)
  item_lore : string;
  category : string;
  tier : string;
  claimed : bool;
  bin_status : bool;
  starting_bid : Z
}.

(** ** ArmorFilterService: the fixed vocabularies *)

Definition valid_armor_attributes : list string :=
  [ "Arachno Resistance"; "Blazing Resistance"; "Breeze"; "Dominance";
    "Ender Resistance"; "Experience"; "Fortitude"; "Life Regeneration";
    "Lifeline"; "Magic Find"; "Mana Pool"; "Mana Regeneration";
    "Vitality"; "Speed"; "Undead Resistance"; "Veteran" ].

Definition valid_armor_names : list string :=
  [ "Crimson"; "Aurora"; "Terror"; "Hollow"; "Fervor" ].

Definition valid_armor_pieces : list string :=
  [ "Helmet"; "Chestplate"; "Leggings"; "Boots" ].

Definition valid_equipments : list string :=
  [ "Molten Belt"; "Molten Bracelet"; "Molten Cloak"; "Molten Necklace" ].

Definition shard : list string := [ "Attribute Shard" ].

(** ** Name predicates *)

(** [any(w.lower() in item_name.lower() for w in words)] *)
Definition any_lower_in (words : list string) (name : string) : bool :=
  existsb (fun w => PyStr.str_in (PyStr.lower w) (PyStr.lower name)) words.

Definition matches_armor_name (name : string) : bool :=
  any_lower_in valid_armor_names name.

Definition matches_armor_piece (name : string) : bool :=
  any_lower_in valid_armor_pieces name.

Definition matches_equipment_name (name : string) : bool :=
  any_lower_in valid_equipments name.

(** ** The three comprehensions of [filter_items]

    Each condition is a chain [item.item_name and ... and item.bin_status ==
    True]; [and] short-circuits, so a falsy name ([None] or the empty
    string) ends the chain before any predicate sees it. *)

Definition name_and (item : AuctionItem) (rest : string -> bool) : bool :=
  match item_name item with
  | None => false
  | Some n => PyStr.truthy n && rest n
  end.

Definition armor_cond (item : AuctionItem) : bool :=
  name_and item (fun n =>
    matches_armor_name n && matches_armor_piece n
    && Bool.eqb (bin_status item) true).

Definition equipment_cond (item : AuctionItem) : bool :=
  name_and item (fun n =>
    matches_equipment_name n && Bool.eqb (bin_status item) true).

Definition shard_cond (item : AuctionItem) : bool :=
  name_and item (fun n =>
    PyStr.str_in "Attribute Shard" n && Bool.eqb (bin_status item) true).

Definition armors (cached_items : list AuctionItem) : list AuctionItem :=
  filter armor_cond cached_items.

Definition equipments (cached_items : list AuctionItem) : list AuctionItem :=
  filter equipment_cond cached_items.

Definition shards (cached_items : list AuctionItem) : list AuctionItem :=
  filter shard_cond cached_items.

(** [return armors + equipments + shards] *)
Definition filter_cached (cached_items : list AuctionItem) : list AuctionItem :=
  armors cached_items ++ equipments cached_items ++ shards cached_items.

(** ** Lore parser: [extract_attributes_from_lore] *)

Module Lore.

(** U+00A7, the section sign that opens a decoration code. *)
Definition section_sign : ascii := "167"%char.

Definition newline : ascii := "010"%char.

Definition in_range (lo hi c : ascii) : bool :=
  ((nat_of_ascii lo <=? nat_of_ascii c)
   && (nat_of_ascii c <=? nat_of_ascii hi))%nat.

(** The character class [[0-9a-fk-or]]. *)
Definition is_code_char (c : ascii) : bool :=
  in_range "0" "9" c || in_range "a" "f" c || in_range "k" "o" c
  || Ascii.eqb c "r".

(** The character class [[IVXLCDM]]. *)
Definition is_roman (c : ascii) : bool :=
  existsb (Ascii.eqb c) ["I"; "V"; "X"; "L"; "C"; "D"; "M"]%char.

(** [re.sub(r'§[0-9a-fk-or]', '', item_lore)]: scanning from the left, a
    section sign followed by a character of the class is dropped together
    with that character, and the scan resumes after the pair. *)
Fixpoint normalized_lore (item_lore : string) : string :=
  match item_lore with
  | EmptyString => EmptyString
  | String c tl =>
      match tl with
      | String d rest =>
          if Ascii.eqb c section_sign && is_code_char d
          then normalized_lore rest
          else String c (normalized_lore tl)
      | EmptyString => String c EmptyString
      end
  end.

(** [s.split('\n')]: never empty, one more piece than there are newlines. *)
Fixpoint split_lines (s : string) : list string :=
  match s with
  | EmptyString => [EmptyString]
  | String c s' =>
      if Ascii.eqb c newline then EmptyString :: split_lines s'
      else match split_lines s' with
           | l :: ls => String c l :: ls
           | [] => [String c EmptyString]
           end
  end.

(** [s[n:]] *)
Fixpoint skip (n : nat) (s : string) : string :=
  match n, s with
  | S n', String _ s' => skip n' s'
  | _, _ => s
  end.

(** The longest run of roman-numeral characters at the head of [s]: what
    the greedy [[IVXLCDM]+] consumes when it is the last thing to match. *)
Fixpoint roman_run (s : string) : string :=
  match s with
  | String c s' => if is_roman c then String c (roman_run s') else EmptyString
  | EmptyString => EmptyString
  end.

(** One alternative of the group, then a space, then the numerals, all
    anchored at the head of [s]. *)
Definition match_alternative (attribute s : string)
  : option (string * string) :=
  if String.prefix attribute s then
    match skip (String.length attribute) s with
    | String sp rest =>
        if Ascii.eqb sp " " then
          let numerals := roman_run rest in
          if PyStr.truthy numerals then Some (attribute, numerals) else None
        else None
    | EmptyString => None
    end
  else None.

(** The alternatives are tried in the order of the list; the engine moves to
    the next one when the rest of the pattern fails after the current one. *)
Fixpoint match_at (attributelist : list string) (s : string)
  : option (string * string) :=
  match attributelist with
  | [] => None
  | a :: more =>
      match match_alternative a s with
      | Some m => Some m
      | None => match_at more s
      end
  end.

(** [attribute_regex.search(line)] with [group(1)] and [group(2)]: start
    positions are tried from the left. *)
Fixpoint attribute_regex_search (line : string) : option (string * string) :=
  match match_at valid_armor_attributes line with
  | Some m => Some m
  | None =>
      match line with
      | EmptyString => None
      | String _ line' => attribute_regex_search line'
      end
  end.

(** [shard_regex.search(line)], as a truth value. *)
Definition shard_regex_search (line : string) : bool :=
  PyStr.str_in "Attribute Shard" line.

(** The dictionaries [{'name': ..., 'level': ...}]. *)
Record AttributeMatch : Type := mkAttributeMatch {
  name : string;
  level : string
}.

Definition shard_entry : AttributeMatch :=
  {| name := "Attribute Shard"; level := "N/A" |}.

(** One turn of the [for line in ...] loop on the list [attributes]. *)
Definition loop_body (attributes : list AttributeMatch) (line : string)
  : list AttributeMatch :=
  let attributes :=
    match attribute_regex_search line with
    | Some (attribute_name, attribute_level) =>
        attributes ++ [{| name := attribute_name; level := attribute_level |}]
    | None => attributes
    end in
  if shard_regex_search line then attributes ++ [shard_entry]
  else attributes.

Definition extract_attributes_from_lore (item_lore : string)
  : list AttributeMatch :=
  fold_left loop_body (split_lines (normalized_lore item_lore)) [].

End Lore.

(** ** AuctionService: the paginated fetch *)

Module Fetch.

(** The only exception the modelled code can raise by itself: a missing
    key in the decoded JSON.  It is not a [RequestException], so the
    [except] clause does not catch it. *)
Inductive exn : Type :=
| KeyError (key : string).

Inductive outcome (A : Type) : Type :=
| Returned (a : A)
| Raised (e : exn).
Arguments Returned {A} a.
Arguments Raised {A} e.

Definition bind {A B : Type} (m : outcome A) (k : A -> outcome B)
  : outcome B :=
  match m with
  | Returned a => k a
  | Raised e => Raised e
  end.

Notation "x <- m ;; k" := (bind m (fun x => k))
  (at level 61, m at next level, right associativity).

(** One element of [data['auctions']]: a JSON object; [None] in a field
    says that the key is missing. *)
Record raw_item : Type := mkRawItem {
  r_uuid : option string;
  r_item_name : option (option string);
  r_item_lore : option string;
  r_category : option string;
  r_tier : option string;
  r_claimed : option bool;
  r_bin : option bool;
  r_starting_bid : option Z
}.

(** The decoded body of one page. *)
Record page_data : Type := mkPageData {
  totalPages : option Z;
  auctions : option (list raw_item)
}.

(** What one [requests.get] followed by [raise_for_status] and [json]
    comes to: a [RequestException] (network error, timeout, error status)
    or the decoded body. *)
Inductive response : Type :=
| RequestException
| Json (data : page_data).

(** [d[key]] *)
Definition subscript {A : Type} (key : string) (v : option A) : outcome A :=
  match v with
  | Some a => Returned a
  | None => Raised (KeyError key)
  end.

(** [d.get(key, default)] *)
Definition get {A : Type} (v : option A) (default : A) : A :=
  match v with
  | Some a => a
  | None => default
  end.

(** The call [AuctionItem(uuid=item['uuid'], ...)], keyword arguments
    evaluated in the order written. *)
Definition make_item (item : raw_item) : outcome AuctionItem :=
  u <- subscript "uuid" (r_uuid item) ;;
  n <- subscript "item_name" (r_item_name item) ;;
  let l := get (r_item_lore item) "" in
  c <- subscript "category" (r_category item) ;;
  t <- subscript "tier" (r_tier item) ;;
  cl <- subscript "claimed" (r_claimed item) ;;
  b <- subscript "bin" (r_bin item) ;;
  s <- subscript "starting_bid" (r_starting_bid item) ;;
  Returned {| uuid := u; item_name := n; item_lore := l; category := c;
              tier := t; claimed := cl; bin_status := b;
              starting_bid := s |}.

(** [for item in data['auctions']: auction_items.append(...)] *)
Fixpoint append_items (auction_items : list AuctionItem)
    (entries : list raw_item) : outcome (list AuctionItem) :=
  match entries with
  | [] => Returned auction_items
  | item :: more =>
      a <- make_item item ;;
      append_items (auction_items ++ [a]) more
  end.

(** The upstream server: what the [sent]-th request of a fetch cycle gets
    when it asks for [page]. *)
Definition server : Type := nat -> nat -> response.

(** What a call leaves behind: its result and, as a record of the requests
    it sent, the page numbers in the order asked. *)
Record run : Type := mkRun {
  result : outcome (list AuctionItem);
  requested : list nat
}.

(** The [while more_pages] loop.  [fuel] bounds the number of requests;
    [None] says the bound was reached with the loop still running. *)
Fixpoint fetch_loop (fuel : nat) (upstream : server) (sent : nat)
    (log : list nat) (auction_items : list AuctionItem) (page : nat)
    (retry_attempts : Z) : option run :=
  match fuel with
  | O => None
  | S fuel' =>
      let log := log ++ [page] in
      match upstream sent page with
      | Json data =>
          match subscript "totalPages" (totalPages data) with
          | Raised e => Some (mkRun (Raised e) log)
          | Returned total_pages =>
              let more_pages := (Z.of_nat page + 1 <? total_pages)%Z in
              let page := page + 1 in
              match entries <- subscript "auctions" (auctions data) ;;
                    append_items auction_items entries with
              | Raised e => Some (mkRun (Raised e) log)
              | Returned auction_items =>
                  if more_pages
                  then fetch_loop fuel' upstream (S sent) log
                         auction_items page retry_attempts
                  else Some (mkRun (Returned auction_items) log)
              end
          end
      | RequestException =>
          let retry_attempts := (retry_attempts - 1)%Z in
          if (retry_attempts >? 0)%Z
          then fetch_loop fuel' upstream (S sent) log
                 auction_items page retry_attempts
          else Some (mkRun (Returned auction_items) log)
      end
  end.

Definition get_auction_items (fuel : nat) (upstream : server) : option run :=
  fetch_loop fuel upstream 0 [] [] 0 5%Z.

End Fetch.

(** ** ArmorFilterService: the cache *)

Module Cache.
Import Fetch.

(** A [datetime] is the number of microseconds since [datetime.min]; a
    [timedelta] is a number of microseconds. *)
Definition datetime : Type := Z.

Definition datetime_min : datetime := 0%Z.

(** [timedelta(minutes=m)] *)
Definition timedelta_minutes (m : Z) : Z := (m * 60 * 1000000)%Z.

Record ArmorFilterService : Type := mkService {
  last_fetched : datetime;
  cached_items : list AuctionItem
}.

(** [__init__] *)
Definition init : ArmorFilterService :=
  {| last_fetched := datetime_min; cached_items := [] |}.

(** The test that opens [filter_items], with [now] the clock reading it
    takes. *)
Definition is_stale (self : ArmorFilterService) (now : datetime) : bool :=
  (now - last_fetched self >? timedelta_minutes 5)%Z.

(** [refresh_data]; [now] is the clock reading taken once the fetch has
    returned.  When the fetch raises, the exception passes through and
    [self] is as before. *)
Definition refresh_data (fuel : nat) (upstream : server) (now : datetime)
    (self : ArmorFilterService) : option (outcome ArmorFilterService) :=
  match get_auction_items fuel upstream with
  | None => None
  | Some r =>
      Some (items <- result r ;;
            Returned {| last_fetched := now; cached_items := items |})
  end.

(** [filter_items]: [now] is read for the staleness test, [now'] by the
    refresh when there is one.  The service afterwards comes with the
    returned list. *)
Definition filter_items (fuel : nat) (upstream : server)
    (now now' : datetime) (self : ArmorFilterService)
  : option (outcome (ArmorFilterService * list AuctionItem)) :=
  if is_stale self now then
    match refresh_data fuel upstream now' self with
    | None => None
    | Some o =>
        Some (self' <- o ;;
              Returned (self', filter_cached (cached_items self')))
    end
  else Some (Returned (self, filter_cached (cached_items self))).

End Cache.

(** ** The served endpoint: [get_filtered_items] *)

Module Endpoint.
Import Fetch Cache.

(** One dictionary of the response list, with the keys "uuid", "name",
    "starting_bid", "tier", "bin_status" and "attributes". *)
Record response_item : Type := mkResponseItem {
  j_uuid : string;
  j_name : option string;
  j_starting_bid : Z;
  j_tier : string;
  j_bin_status : bool;
  j_attributes : list Lore.AttributeMatch
}.

(** The dictionary built for one item of the filtered list. *)
Definition response_of (item : AuctionItem) : response_item :=
  {| j_uuid := uuid item;
     j_name := item_name item;
     j_starting_bid := starting_bid item;
     j_tier := tier item;
     j_bin_status := bin_status item;
     j_attributes := Lore.extract_attributes_from_lore (item_lore item) |}.

(** [get_filtered_items], up to the call of [jsonify]: the list handed to
    it, with the service as the call leaves it. *)
Definition get_filtered_items (fuel : nat) (upstream : server)
    (now now' : datetime) (self : ArmorFilterService)
  : option (outcome (ArmorFilterService * list response_item)) :=
  match filter_items fuel upstream now now' self with
  | None => None
  | Some o =>
      Some (r <- o ;;
            let '(self', filtered_items) := r in
            Returned (self', map response_of filtered_items))
  end.

End Endpoint.

(** * Vocabulary of the statements

    Predicates and measures in which the properties below are phrased, and
    the concrete data on which they are exercised. *)

Module LoreSpec.
Import Lore.

(** Every character of [s] is a roman-numeral character. *)
Fixpoint all_roman (s : string) : Prop :=
  match s with
  | EmptyString => True
  | String c s' => is_roman c = true /\ all_roman s'
  end.

(** [s] does not begin with a roman-numeral character. *)
Definition no_roman_head (s : string) : Prop :=
  match s with
  | EmptyString => True
  | String c _ => is_roman c = false
  end.

(** The pattern of the regular expression is present at the head of [s]:
    an attribute name, a space and at least one roman-numeral character. *)
Definition OccursAtHead (attributelist : list string) (s : string) : Prop :=
  exists a c rest,
    In a attributelist /\ is_roman c = true
    /\ s = (a ++ " " ++ String c rest)%string.

(** The match the engine reports at the head of [s]: the name, a space, and
    the whole run of numerals that follows. *)
Definition MatchAtHead (attributelist : list string) (s a numerals : string)
  : Prop :=
  In a attributelist
  /\ numerals <> ""
  /\ all_roman numerals
  /\ exists post,
       s = (a ++ " " ++ numerals ++ post)%string /\ no_roman_head post.

(** No character of [s] is a newline. *)
Fixpoint newline_free (s : string) : Prop :=
  match s with
  | EmptyString => True
  | String c s' => c <> newline /\ newline_free s'
  end.

End LoreSpec.

Module FetchSpec.
Import Fetch.

(** Every key that [make_item] subscripts is present. *)
Definition well_formed (r : raw_item) : bool :=
  match r_uuid r, r_item_name r, r_category r, r_tier r, r_claimed r,
        r_bin r, r_starting_bid r with
  | Some _, Some _, Some _, Some _, Some _, Some _, Some _ => true
  | _, _, _, _, _, _, _ => false
  end.

(** The listings of the entries that [make_item] accepts, in order. *)
Definition listings (entries : list raw_item) : list AuctionItem :=
  flat_map (fun r => match make_item r with
                     | Returned a => [a]
                     | Raised _ => []
                     end) entries.

(** The responses [tr] are what the server sends to the requests numbered
    [sent], [sent + 1], ..., whatever page they ask for. *)
Definition plays (upstream : server) (sent : nat) (tr : list response) : Prop :=
  forall k p, k < List.length tr ->
              upstream (sent + k) p = nth k tr RequestException.

(** The number of failed requests among [tr]. *)
Fixpoint failures (tr : list response) : nat :=
  match tr with
  | [] => 0
  | RequestException :: tr' => S (failures tr')
  | Json _ :: tr' => failures tr'
  end.

(** Every decoded body among [tr], met while the loop is at [page] and
    onwards, has its keys, has well-formed entries and announces pages beyond
    the one just read: the loop neither raises nor ends on it. *)
Fixpoint keeps_going (page : nat) (tr : list response) : Prop :=
  match tr with
  | [] => True
  | RequestException :: tr' => keeps_going page tr'
  | Json data :: tr' =>
      (exists total_pages entries,
          totalPages data = Some total_pages
          /\ auctions data = Some entries
          /\ (Z.of_nat page + 1 < total_pages)%Z
          /\ Forall (fun r => well_formed r = true) entries)
      /\ keeps_going (page + 1) tr'
  end.

(** The listings carried by the decoded bodies among [tr], in order. *)
Definition accumulated (tr : list response) : list AuctionItem :=
  flat_map (fun r => match r with
                     | Json data => listings (get (auctions data) [])
                     | RequestException => []
                     end) tr.

End FetchSpec.

Module Examples.
Import Lore Fetch Cache.

Definition helmet_example (b : bool) : AuctionItem :=
  mkAuctionItem "u1" (Some "Crimson Helmet") "" "armor" "LEGENDARY"
    false b 1000%Z.

Definition contrived_example : AuctionItem :=
  mkAuctionItem "u2" (Some "Crimson Attribute Shard Helmet") "" "armor"
    "EPIC" false true 5%Z.

Definition nameless_example (n : option string) : AuctionItem :=
  mkAuctionItem "u3" n "" "misc" "COMMON" false true 7%Z.

(** The decoration code made of the section sign and [d], followed by [s]. *)
Definition code (d : ascii) (s : string) : string :=
  String section_sign (String d s).

(** The description: code a, "Life Regeneration ", code 6, "V", a newline,
    code 7, "Attribute Shard". *)
Definition life_regeneration_lore : string :=
  code "a" ("Life Regeneration "
            ++ code "6" ("V" ++ String newline (code "7" "Attribute Shard"))).

Definition entry_example (u : string) (n : string) : raw_item :=
  {| r_uuid := Some u; r_item_name := Some (Some n); r_item_lore := None;
     r_category := Some "armor"; r_tier := Some "RARE";
     r_claimed := Some false; r_bin := Some true;
     r_starting_bid := Some 100%Z |}.

(** A server whose first answer is a page of one entry that announces three
    pages, and which fails from then on. *)
Definition one_page_then_down : server :=
  fun sent _ =>
    match sent with
    | O => Json {| totalPages := Some 3%Z;
                   auctions := Some [entry_example "a1" "Aurora Boots"] |}
    | S _ => RequestException
    end.

(** A server that fails every request. *)
Definition always_down : server := fun _ _ => RequestException.

Definition two_pages (p : nat) : list raw_item :=
  match p with
  | 0 => [entry_example "a1" "Aurora Boots"; entry_example "a2" "Molten Belt"]
  | 1 => [entry_example "a3" "Terror Helmet"]
  | _ => []
  end.

(** A service holding one listing, fetched at time 100. *)
Definition holding_one : ArmorFilterService :=
  {| last_fetched := 100%Z; cached_items := [helmet_example true] |}.

End Examples.

Module MoreSpec.
Import Lore Fetch.

(** The first key, in the order [make_item] subscripts them, that the entry
    lacks. *)
Definition first_missing (r : raw_item) : option string :=
  match r_uuid r with None => Some "uuid" | Some _ =>
  match r_item_name r with None => Some "item_name" | Some _ =>
  match r_category r with None => Some "category" | Some _ =>
  match r_tier r with None => Some "tier" | Some _ =>
  match r_claimed r with None => Some "claimed" | Some _ =>
  match r_bin r with None => Some "bin" | Some _ =>
  match r_starting_bid r with None => Some "starting_bid" | Some _ =>
  None
  end end end end end end end.

(** The first missing key of the first entry that lacks one. *)
Fixpoint first_bad (entries : list raw_item) : option string :=
  match entries with
  | [] => None
  | r :: more =>
      match first_missing r with
      | Some key => Some key
      | None => first_bad more
      end
  end.

(** The first key that reading a decoded body finds missing: the page count,
    then the list of entries, then the keys of the entries in order. *)
Definition page_error (data : page_data) : option string :=
  match totalPages data with
  | None => Some "totalPages"
  | Some _ =>
      match auctions data with
      | None => Some "auctions"
      | Some entries => first_bad entries
      end
  end.

(** The number of decoded bodies among [tr]. *)
Fixpoint successes (tr : list response) : nat :=
  match tr with
  | [] => 0
  | RequestException :: tr' => successes tr'
  | Json _ :: tr' => S (successes tr')
  end.

(** The pages a loop standing at [page] asks for while it receives [tr]: the
    same page again after a failure, the next one after a decoded body. *)
Fixpoint asked (page : nat) (tr : list response) : list nat :=
  match tr with
  | [] => []
  | RequestException :: tr' => page :: asked page tr'
  | Json _ :: tr' => page :: asked (page + 1) tr'
  end.


(** No character of [s] is the section sign. *)
Fixpoint section_free (s : string) : Prop :=
  match s with
  | EmptyString => True
  | String c s' => c <> section_sign /\ section_free s'
  end.

(** An entry as the regular pattern produces them: a name of the vocabulary
    and a level made of one or more roman-numeral characters. *)
Definition regular_entry (e : AttributeMatch) : Prop :=
  In (name e) valid_armor_attributes
  /\ level e <> ""
  /\ LoreSpec.all_roman (level e).

Lemma AuctionItem_eq_dec (a b : AuctionItem) : {a = b} + {a <> b}.
Proof.
  decide equality;
    try apply string_dec; try apply Z.eq_dec; try apply bool_dec.
  decide equality. apply string_dec.
Defined.

End MoreSpec.

Module MoreExamples.
Import Lore Fetch Cache Examples.

(** An entry whose "tier" key is missing. *)
Definition entry_without_tier : raw_item :=
  {| r_uuid := Some "a9"; r_item_name := Some (Some "Hollow Leggings");
     r_item_lore := Some "Speed V"; r_category := Some "armor";
     r_tier := None; r_claimed := Some false; r_bin := Some true;
     r_starting_bid := Some 9%Z |}.

(** A server that sends a first page, fails once, then sends a page one of
    whose entries has no "tier". *)
Definition page_then_missing_tier : server :=
  fun sent _ =>
    match sent with
    | 0 => Json {| totalPages := Some 3%Z;
                   auctions := Some [entry_example "a1" "Aurora Boots"] |}
    | 1 => RequestException
    | _ => Json {| totalPages := Some 3%Z;
                   auctions := Some [entry_example "a2" "Molten Belt";
                                     entry_without_tier] |}
    end.


(** A server that always announces one page more than the one after the page
    asked, with no entries. *)
Definition always_one_more : server :=
  fun _ page =>
    Json {| totalPages := Some (Z.of_nat page + 2)%Z; auctions := Some [] |}.

(** A shard listing whose description carries a code, an attribute and
    the shard marker. *)
Definition lore_example : AuctionItem :=
  mkAuctionItem "u7" (Some "Attribute Shard")
    (code "7" ("Mana Pool II" ++ String newline "Attribute Shard"))
    "misc" "COMMON" false true 250%Z.

End MoreExamples.

(** * Properties *)

(** ** Substring test *)

Module PyStrFacts.
Import PyStr.

Lemma prefix_split (p s : string) :
  String.prefix p s = true <-> exists post, s = (p ++ post)%string.
Proof.
  revert s; induction p as [|c p IH]; intros s; simpl.
  - split; [intros _; now exists s | now destruct s].
  - destruct s as [|d s]; simpl.
    + split; [discriminate | intros [post H]; discriminate].
    + destruct (ascii_dec c d) as [->|Hne].
      * rewrite IH. split; intros [post H]; exists post.
        -- now rewrite H.
        -- now injection H.
      * split; [discriminate|].
        intros [post H]. injection H as H1 _. now symmetry in H1.
Qed.

Lemma str_in_spec (needle hay : string) :
  str_in needle hay = true <-> Substring needle hay.
Proof.
  unfold Substring.
  induction hay as [|c hay IH]; cbn [str_in].
  - rewrite orb_false_r, prefix_split. split.
    + intros [post H]. now exists "", post.
    + intros [[|d pre] [post H]]; [now exists post | discriminate].
  - rewrite orb_true_iff, IH, prefix_split. split.
    + intros [[post H] | [pre [post H]]].
      * now exists "", post.
      * exists (String c pre), post. simpl. now rewrite H.
    + intros [[|d pre] [post H]].
      * left. now exists post.
      * right. simpl in H. injection H as _ H. now exists pre, post.
Qed.

Lemma lower_app (a b : string) :
  lower (a ++ b) = (lower a ++ lower b)%string.
Proof. induction a as [|c a IH]; simpl; [reflexivity | now rewrite IH]. Qed.

(** Lower-casing works character by character, so a cut of the lower-cased
    string is the image of a cut of the string. *)
Lemma lower_app_inv (x : string) :
  forall s y, lower s = (x ++ y)%string ->
              exists a b, s = (a ++ b)%string /\ lower a = x /\ lower b = y.
Proof.
  induction x as [|c x IH]; intros s y H.
  - exists "", s. now repeat split.
  - destruct s as [|d s]; [discriminate|].
    simpl in H. injection H as Hc H.
    destruct (IH s y H) as [a [b [-> [Ha Hb]]]].
    exists (String d a), b. simpl. now rewrite Hc, Ha.
Qed.

(** Containment up to case is containment after lower-casing both sides,
    which is what the source tests. *)
Lemma ContainsCI_lower (hay needle : string) :
  ContainsCI hay needle <-> Substring (lower needle) (lower hay).
Proof.
  unfold ContainsCI, Substring. split.
  - intros [pre [mid [post [-> Hmid]]]].
    exists (lower pre), (lower post).
    now rewrite !lower_app, Hmid.
  - intros [pre' [post' H]].
    destruct (lower_app_inv pre' hay _ H) as [pre [tl [-> [_ Htl]]]].
    destruct (lower_app_inv (lower needle) tl _ Htl)
      as [mid [post [-> [Hmid _]]]].
    now exists pre, mid, post.
Qed.

End PyStrFacts.

(** ** Classifier and filter *)

Section Classifier.
Import PyStr PyStrFacts.

Lemma any_lower_in_spec (words : list string) (name : string) :
  any_lower_in words name = true
  <-> exists w, In w words /\ ContainsCI name w.
Proof.
  unfold any_lower_in. rewrite existsb_exists.
  split; intros [w [Hin H]]; exists w; split; trivial.
  - now apply ContainsCI_lower, str_in_spec.
  - now apply str_in_spec, ContainsCI_lower.
Qed.

Lemma name_and_true (item : AuctionItem) (rest : string -> bool) :
  name_and item rest = true
  <-> exists n, item_name item = Some n /\ n <> "" /\ rest n = true.
Proof.
  unfold name_and. destruct (item_name item) as [n|].
  - destruct n as [|c n]; simpl.
    + split; [discriminate | intros [m [Hm [Hne _]]]].
      injection Hm as <-. now elim Hne.
    + split.
      * intros H. exists (String c n). repeat split; trivial. discriminate.
      * intros [m [Hm [_ H]]]. now injection Hm as <-.
  - split; [discriminate | intros [m [Hm _]]; discriminate].
Qed.

Lemma eqb_true_r (b : bool) : Bool.eqb b true = b.
Proof. now destruct b. Qed.

Lemma armor_cond_true (item : AuctionItem) :
  armor_cond item = true
  <-> exists n, item_name item = Some n /\ n <> ""
                /\ matches_armor_name n = true
                /\ matches_armor_piece n = true
                /\ bin_status item = true.
Proof.
  unfold armor_cond. rewrite name_and_true.
  split; intros [n [Hn [Hne H]]]; exists n; repeat split; trivial.
  - rewrite eqb_true_r, !andb_true_iff in H. tauto.
  - rewrite eqb_true_r, !andb_true_iff in H. tauto.
  - rewrite eqb_true_r, !andb_true_iff in H. tauto.
  - rewrite eqb_true_r, !andb_true_iff. tauto.
Qed.

Lemma equipment_cond_true (item : AuctionItem) :
  equipment_cond item = true
  <-> exists n, item_name item = Some n /\ n <> ""
                /\ matches_equipment_name n = true
                /\ bin_status item = true.
Proof.
  unfold equipment_cond. rewrite name_and_true.
  split; intros [n [Hn [Hne H]]]; exists n; repeat split; trivial;
    rewrite eqb_true_r, ?andb_true_iff in *; tauto.
Qed.

Lemma shard_cond_true (item : AuctionItem) :
  shard_cond item = true
  <-> exists n, item_name item = Some n /\ n <> ""
                /\ str_in "Attribute Shard" n = true
                /\ bin_status item = true.
Proof.
  unfold shard_cond. rewrite name_and_true.
  split; intros [n [Hn [Hne H]]]; exists n; repeat split; trivial;
    rewrite eqb_true_r, ?andb_true_iff in *; tauto.
Qed.

(** Membership in the concatenated result, branch by branch. *)
Lemma in_filter_cached (cached_items : list AuctionItem) (it : AuctionItem) :
  In it (filter_cached cached_items)
  <-> In it cached_items
      /\ (armor_cond it = true \/ equipment_cond it = true
          \/ shard_cond it = true).
Proof.
  unfold filter_cached, armors, equipments, shards.
  rewrite !in_app_iff, !filter_In. tauto.
Qed.

End Classifier.

(** ** What [filter_items] returns *)

Section FilterItems.
Import Fetch Cache.

(** With a fresh cache nothing is fetched: the call returns, the service is
    as before and the list is computed from the items it holds. *)
Lemma filter_items_fresh fuel upstream now now' self :
  is_stale self now = false ->
  filter_items fuel upstream now now' self
  = Some (Returned (self, filter_cached (cached_items self))).
Proof. unfold filter_items. now intros ->. Qed.

(** With a stale cache, a refresh that returns is followed by the three
    comprehensions on the new items. *)
Lemma filter_items_stale fuel upstream now now' self self' :
  is_stale self now = true ->
  refresh_data fuel upstream now' self = Some (Returned self') ->
  filter_items fuel upstream now now' self
  = Some (Returned (self', filter_cached (cached_items self'))).
Proof. unfold filter_items. now intros -> ->. Qed.

(** Whatever path was taken, a returned list is the concatenation computed
    from the items the service holds afterwards. *)
Lemma filter_items_result fuel upstream now now' self self' res :
  filter_items fuel upstream now now' self = Some (Returned (self', res)) ->
  res = filter_cached (cached_items self').
Proof.
  unfold filter_items. destruct (is_stale self now).
  - destruct (refresh_data fuel upstream now' self) as [[s|e]|];
      simpl; intros H; try discriminate.
    now injection H as <- <-.
  - intros H. now injection H as <- <-.
Qed.

End FilterItems.

Section ClassifierClaims.
Import PyStr PyStrFacts Fetch Cache Examples.

(** C6.  For every display name, the armor condition of the filter holds
    exactly when the name contains, case-insensitively and as a substring,
    one of the 5 armor-line words and one of the 4 piece words; a name that
    is only a piece word, or only an armor-line word, does not match, and one
    that has both in another case does.  The condition is taken on an item
    with the fixed-price flag set, which is the remaining conjunct of the
    comprehension. *)
Theorem armor_predicate_iff :
  (forall u n l c t cl s,
      armor_cond (mkAuctionItem u (Some n) l c t cl true s) = true
      <-> (exists p, In p valid_armor_names /\ ContainsCI n p)
          /\ (exists q, In q valid_armor_pieces /\ ContainsCI n q))
  /\ List.length valid_armor_names = 5
  /\ List.length valid_armor_pieces = 4
  /\ (forall u l c t cl s,
         armor_cond (mkAuctionItem u (Some "Helmet") l c t cl true s) = false
         /\ armor_cond (mkAuctionItem u (Some "Crimson") l c t cl true s)
            = false
         /\ armor_cond
              (mkAuctionItem u (Some "hot CRIMSON chestPlate") l c t cl true s)
            = true).
Proof.
  split; [|repeat split; reflexivity].
  intros u n l c t cl s.
  rewrite <- !any_lower_in_spec.
  fold (matches_armor_name n) (matches_armor_piece n).
  rewrite armor_cond_true. simpl. split.
  - intros [m [Hm [_ [Ha [Hp _]]]]]. injection Hm as <-. now split.
  - intros [Ha Hp]. exists n. repeat split; trivial.
    intros ->. discriminate Ha.
Qed.

(** C7.  Whenever [filter_items] returns, a cached item named "Crimson
    Helmet" with the fixed-price flag set is in the armor branch, hence in
    the returned list, and an item of that name with the flag cleared is
    not in the returned list. *)
Theorem crimson_helmet_bin
    fuel upstream now now' self self' res u l c t cl s
    (hit := mkAuctionItem u (Some "Crimson Helmet") l c t cl true s)
    (miss := mkAuctionItem u (Some "Crimson Helmet") l c t cl false s) :
  filter_items fuel upstream now now' self = Some (Returned (self', res)) ->
  (In hit (cached_items self') ->
     In hit (armors (cached_items self')) /\ In hit res)
  /\ ~ In miss res.
Proof.
  intros H. apply filter_items_result in H. subst res. split.
  - intros Hin. split.
    + unfold armors. now apply filter_In.
    + apply in_filter_cached. split; trivial. now left.
  - rewrite in_filter_cached. intros [_ [H | [H | H]]]; discriminate H.
Qed.

Lemma crimson_helmet_bin_witness :
  let self := mkService 0%Z [helmet_example false; helmet_example true] in
  filter_items 0 (fun _ _ => RequestException) 10%Z 10%Z self
  = Some (Returned (self, [helmet_example true]))
  /\ In (helmet_example true) [helmet_example true]
  /\ ~ In (helmet_example false) [helmet_example true].
Proof.
  intros self.
  assert (E : filter_items 0 (fun _ _ => RequestException) 10%Z 10%Z self
              = Some (Returned (self, [helmet_example true])))
    by reflexivity.
  split; [exact E|].
  destruct (crimson_helmet_bin 0 (fun _ _ => RequestException) 10%Z 10%Z
              self self [helmet_example true]
              "u1" "" "armor" "LEGENDARY" false 1000%Z E) as [Hhit Hmiss].
  split; [|exact Hmiss].
  apply Hhit. simpl. right. left. reflexivity.
Defined.

(** Each branch keeps an item once, or not at all. *)
Lemma filter_cached_single (it : AuctionItem) :
  filter_cached [it]
  = (if armor_cond it then [it] else [])
    ++ (if equipment_cond it then [it] else [])
    ++ (if shard_cond it then [it] else []).
Proof.
  unfold filter_cached, armors, equipments, shards. simpl.
  now destruct (armor_cond it), (equipment_cond it), (shard_cond it).
Qed.

(** C8.  A returned list is the armor matches, then the equipment matches,
    then the shard matches, each branch filtering the cached items on its
    own, so an item is listed once per branch it satisfies: "Crimson
    Attribute Shard Helmet" satisfies the armor and the shard branch and
    is listed twice, and "Molten Cloak" satisfies the equipment branch
    while both armor predicates are false on it. *)
Theorem filter_concatenates_branches
    fuel upstream now now' self self' res u l c t cl s
    (contrived :=
       mkAuctionItem u (Some "Crimson Attribute Shard Helmet") l c t cl
         true s)
    (cloak := mkAuctionItem u (Some "Molten Cloak") l c t cl true s) :
  filter_items fuel upstream now now' self = Some (Returned (self', res)) ->
  res = armors (cached_items self') ++ equipments (cached_items self')
        ++ shards (cached_items self')
  /\ (forall it, filter_cached [it]
                 = (if armor_cond it then [it] else [])
                   ++ (if equipment_cond it then [it] else [])
                   ++ (if shard_cond it then [it] else []))
  /\ (forall it items,
         In it (equipments items)
         <-> In it items
             /\ exists n, item_name it = Some n /\ n <> ""
                          /\ matches_equipment_name n = true
                          /\ bin_status it = true)
  /\ filter_cached [contrived] = [contrived; contrived]
  /\ (armor_cond contrived, equipment_cond contrived, shard_cond contrived)
     = (true, false, true)
  /\ filter_cached [cloak] = [cloak]
  /\ (matches_armor_name "Molten Cloak", matches_armor_piece "Molten Cloak",
      matches_equipment_name "Molten Cloak") = (false, false, true).
Proof.
  intros H. apply filter_items_result in H.
  split; [exact H|]. split; [exact filter_cached_single|].
  split; [|repeat split; reflexivity].
  intros it items. unfold equipments.
  now rewrite filter_In, equipment_cond_true.
Qed.

Lemma filter_concatenates_branches_witness :
  let self := mkService 0%Z [helmet_example true; contrived_example] in
  filter_items 0 (fun _ _ => RequestException) 10%Z 10%Z self
  = Some (Returned (self, [helmet_example true; contrived_example;
                           contrived_example]))
  /\ [helmet_example true; contrived_example; contrived_example]
     = armors (cached_items self) ++ equipments (cached_items self)
       ++ shards (cached_items self).
Proof.
  intros self.
  assert (E : filter_items 0 (fun _ _ => RequestException) 10%Z 10%Z self
              = Some (Returned (self, [helmet_example true;
                                       contrived_example;
                                       contrived_example])))
    by reflexivity.
  split; [exact E|].
  exact (proj1 (filter_concatenates_branches 0 (fun _ _ => RequestException)
                  10%Z 10%Z self self _ "" "" "" "" false 0%Z E)).
Defined.

(** C10.  Every item of a returned list has a name that is present and not
    empty, and has the fixed-price flag set; an item whose name is absent or
    empty is in none of the three branches, whatever its other fields. *)
Theorem filter_result_named_and_bin
    fuel upstream now now' self self' res :
  filter_items fuel upstream now now' self = Some (Returned (self', res)) ->
  (forall it, In it res ->
      (exists n, item_name it = Some n /\ n <> "")
      /\ bin_status it = true)
  /\ (forall it items,
         item_name it = None \/ item_name it = Some "" ->
         ~ In it (armors items) /\ ~ In it (equipments items)
         /\ ~ In it (shards items)).
Proof.
  intros H. apply filter_items_result in H. subst res. split.
  - intros it Hin. apply in_filter_cached in Hin.
    destruct Hin as [_ [Hc | [Hc | Hc]]].
    + apply armor_cond_true in Hc. destruct Hc as [n [Hn [Hne [_ [_ Hb]]]]].
      split; [now exists n | exact Hb].
    + apply equipment_cond_true in Hc. destruct Hc as [n [Hn [Hne [_ Hb]]]].
      split; [now exists n | exact Hb].
    + apply shard_cond_true in Hc. destruct Hc as [n [Hn [Hne [_ Hb]]]].
      split; [now exists n | exact Hb].
  - intros it items Hname. unfold armors, equipments, shards.
    rewrite !filter_In, armor_cond_true, equipment_cond_true,
      shard_cond_true.
    repeat split; intros [_ [n [Hn [Hne _]]]];
      destruct Hname as [E | E]; rewrite E in Hn;
      try discriminate; injection Hn as <-; now elim Hne.
Qed.

Lemma filter_result_named_and_bin_witness :
  let self :=
    mkService 0%Z [nameless_example None; nameless_example (Some "");
                   helmet_example false; helmet_example true] in
  filter_items 0 (fun _ _ => RequestException) 10%Z 10%Z self
  = Some (Returned (self, [helmet_example true]))
  /\ (forall it, In it [helmet_example true] ->
        (exists n, item_name it = Some n /\ n <> "")
        /\ bin_status it = true).
Proof.
  intros self.
  assert (E : filter_items 0 (fun _ _ => RequestException) 10%Z 10%Z self
              = Some (Returned (self, [helmet_example true])))
    by reflexivity.
  split; [exact E|].
  exact (proj1 (filter_result_named_and_bin 0 (fun _ _ => RequestException)
                  10%Z 10%Z self self _ E)).
Defined.

End ClassifierClaims.

(** ** Lore parser *)

Module LoreFacts.
Import PyStr PyStrFacts Lore LoreSpec.

Lemma skip_app (a post : string) :
  skip (String.length a) (a ++ post) = post.
Proof. induction a as [|c a IH]; simpl; [now destruct post | exact IH]. Qed.

Lemma roman_run_split (s : string) :
  all_roman (roman_run s)
  /\ exists post, s = (roman_run s ++ post)%string /\ no_roman_head post.
Proof.
  induction s as [|c s [IHa [post [IHs IHp]]]]; simpl.
  - split; [exact I | now exists ""].
  - destruct (is_roman c) eqn:Ec; simpl.
    + split; [now split|]. exists post. split; [now rewrite <- IHs | exact IHp].
    + split; [exact I|]. now exists (String c s).
Qed.

Lemma truthy_nonempty (s : string) : truthy s = true -> s <> "".
Proof. destruct s; [discriminate | intros _; discriminate]. Qed.

Lemma match_alternative_some (a s n numerals : string) :
  match_alternative a s = Some (n, numerals) ->
  n = a /\ MatchAtHead [a] s a numerals.
Proof.
  unfold match_alternative.
  destruct (String.prefix a s) eqn:Ep; [|discriminate].
  apply prefix_split in Ep. destruct Ep as [tail ->].
  rewrite skip_app.
  destruct tail as [|sp rest]; [discriminate|].
  destruct (Ascii.eqb_spec sp " ") as [->|Hsp]; [|discriminate].
  destruct (truthy (roman_run rest)) eqn:Et; [|discriminate].
  intros H. injection H as <- <-. split; [reflexivity|].
  destruct (roman_run_split rest) as [Ha [post [Hs Hp]]].
  repeat split; [now left | now apply truthy_nonempty | exact Ha |].
  exists post. split; [|exact Hp]. simpl. now rewrite <- Hs.
Qed.

Lemma match_alternative_none (a s : string) :
  match_alternative a s = None -> ~ OccursAtHead [a] s.
Proof.
  unfold match_alternative. intros H [a' [c [rest [[<-|[]] [Hc ->]]]]].
  assert (Ep : String.prefix a (a ++ " " ++ String c rest) = true)
    by (apply prefix_split; now eexists).
  rewrite Ep, skip_app in H. simpl in H. now rewrite Hc in H.
Qed.

Lemma MatchAtHead_weaken (a : string) (l : list string) s n numerals :
  MatchAtHead l s n numerals -> MatchAtHead (a :: l) s n numerals.
Proof. intros [Hin H]. split; [now right | exact H]. Qed.

Lemma match_at_some (l : list string) (s n numerals : string) :
  match_at l s = Some (n, numerals) -> MatchAtHead l s n numerals.
Proof.
  induction l as [|a l IH]; simpl; [discriminate|].
  destruct (match_alternative a s) as [[n' lv']|] eqn:Ea.
  - intros H. injection H as -> ->.
    apply match_alternative_some in Ea. destruct Ea as [-> [_ H]].
    split; [now left | exact H].
  - intros H. now apply MatchAtHead_weaken, IH.
Qed.

Lemma match_at_none (l : list string) (s : string) :
  match_at l s = None -> ~ OccursAtHead l s.
Proof.
  induction l as [|a l IH]; simpl.
  - intros _ [a' [c [rest [[] _]]]].
  - destruct (match_alternative a s) as [m|] eqn:Ea; [discriminate|].
    intros H [a' [c [rest [[<-|Hin] [Hc Hs]]]]].
    + apply (match_alternative_none _ _ Ea).
      exists a, c, rest. repeat split; trivial. now left.
    + apply (IH H). now exists a', c, rest.
Qed.

(** A reported match is an occurrence. *)
Lemma MatchAtHead_occurs (l : list string) s n numerals :
  MatchAtHead l s n numerals -> OccursAtHead l s.
Proof.
  intros [Hin [Hne [Hr [post [-> _]]]]].
  destruct numerals as [|c numerals]; [now elim Hne|].
  exists n, c, (numerals ++ post)%string.
  repeat split; trivial. exact (proj1 Hr).
Qed.

(** The search reports the leftmost position at which the pattern occurs:
    nothing occurs at the head of any suffix that starts earlier. *)
Lemma attribute_regex_search_some (line n numerals : string) :
  attribute_regex_search line = Some (n, numerals) ->
  exists pre rest,
    line = (pre ++ rest)%string
    /\ MatchAtHead valid_armor_attributes rest n numerals
    /\ forall pre' rest',
         line = (pre' ++ rest')%string ->
         String.length pre' < String.length pre ->
         ~ OccursAtHead valid_armor_attributes rest'.
Proof.
  induction line as [|c line IH]; cbn [attribute_regex_search].
  - destruct (match_at valid_armor_attributes "") as [m|] eqn:Em;
      [|discriminate].
    intros H. injection H as ->. exists "", "".
    split; [reflexivity|]. split; [now apply match_at_some|].
    intros pre' rest' _ Hlt. inversion Hlt.
  - destruct (match_at valid_armor_attributes (String c line)) as [m|] eqn:Em.
    + intros H. injection H as ->. exists "", (String c line).
      split; [reflexivity|]. split; [now apply match_at_some|].
      intros pre' rest' _ Hlt. inversion Hlt.
    + intros H. destruct (IH H) as [pre [rest [-> [Hm Hfirst]]]].
      exists (String c pre), rest.
      split; [reflexivity|]. split; [exact Hm|].
      intros [|d pre'] rest' Heq Hlt.
      * simpl in Heq. subst rest'. now apply match_at_none.
      * simpl in Heq. injection Heq as _ Heq.
        apply (Hfirst pre' rest' Heq). simpl in Hlt. lia.
Qed.

(** No match is reported only when the pattern occurs nowhere. *)
Lemma attribute_regex_search_none (line : string) :
  attribute_regex_search line = None ->
  forall pre rest,
    line = (pre ++ rest)%string ->
    ~ OccursAtHead valid_armor_attributes rest.
Proof.
  induction line as [|c line IH]; cbn [attribute_regex_search].
  - destruct (match_at valid_armor_attributes "") as [m|] eqn:Em;
      [discriminate|].
    intros _ [|d pre] rest Heq; [|discriminate].
    simpl in Heq. subst rest. now apply match_at_none.
  - destruct (match_at valid_armor_attributes (String c line)) as [m|] eqn:Em;
      [discriminate|].
    intros H [|d pre] rest Heq.
    + simpl in Heq. subst rest. now apply match_at_none.
    + simpl in Heq. injection Heq as _ Heq. now apply (IH H pre).
Qed.

(** The loop only appends to the list it is given. *)
Lemma loop_body_app (attributes : list AttributeMatch) (line : string) :
  loop_body attributes line = attributes ++ loop_body [] line.
Proof.
  unfold loop_body.
  destruct (attribute_regex_search line) as [[n lv]|];
    destruct (shard_regex_search line); simpl;
    now rewrite <- ?app_assoc, ?app_nil_r.
Qed.

Lemma fold_loop_body (lines : list string) (attributes : list AttributeMatch) :
  fold_left loop_body lines attributes
  = attributes ++ flat_map (loop_body []) lines.
Proof.
  revert attributes. induction lines as [|line lines IH]; intros acc; simpl.
  - now rewrite app_nil_r.
  - now rewrite IH, (loop_body_app acc), <- app_assoc.
Qed.

(** [split_lines] cuts at the newlines and nowhere else. *)
Lemma split_lines_join (s : string) :
  String.concat (String newline "") (split_lines s) = s
  /\ Forall newline_free (split_lines s)
  /\ split_lines s <> [].
Proof.
  induction s as [|c s [IHj [IHf IHn]]]; simpl.
  - repeat split; [repeat constructor | discriminate].
  - destruct (Ascii.eqb_spec c newline) as [->|Hc].
    + repeat split; [|constructor; [exact I | exact IHf] | discriminate].
      destruct (split_lines s) as [|l ls]; [now elim IHn|].
      simpl in *. now rewrite IHj.
    + destruct (split_lines s) as [|l ls]; [now elim IHn|].
      repeat split; [| |discriminate].
      * simpl in *. destruct ls; simpl in *; now rewrite <- IHj.
      * inversion IHf; subst. constructor; [now split | assumption].
Qed.

Lemma normalized_lore_pair (c d : ascii) (rest : string) :
  normalized_lore (String c (String d rest))
  = if Ascii.eqb c section_sign && is_code_char d
    then normalized_lore rest
    else String c (normalized_lore (String d rest)).
Proof. reflexivity. Qed.

(** A decoration code is dropped wherever it stands: what precedes it and
    what follows it are normalized on their own. *)
Lemma normalized_lore_code (a : string) (d : ascii) (b : string) :
  is_code_char d = true ->
  normalized_lore (a ++ String section_sign (String d b))
  = (normalized_lore a ++ normalized_lore b)%string.
Proof.
  intros Hd.
  assert (G : forall n a, String.length a <= n ->
            normalized_lore (a ++ String section_sign (String d b))
            = (normalized_lore a ++ normalized_lore b)%string).
  { clear a. induction n as [|n IH]; intros a Hlen.
    - destruct a; [|simpl in Hlen; lia]. cbn [append].
      now rewrite normalized_lore_pair, Ascii.eqb_refl, Hd.
    - destruct a as [|c [|e a]]; cbn [append].
      + now rewrite normalized_lore_pair, Ascii.eqb_refl, Hd.
      + rewrite !normalized_lore_pair.
        replace (is_code_char section_sign) with false by reflexivity.
        now rewrite andb_false_r, Ascii.eqb_refl, Hd.
      + simpl in Hlen. rewrite !normalized_lore_pair.
        destruct (Ascii.eqb c section_sign && is_code_char e).
        * apply IH. lia.
        * change (String e (a ++ String section_sign (String d b)))
            with (String e a ++ String section_sign (String d b))%string.
          rewrite IH by (simpl; lia). reflexivity. }
  now apply (G (String.length a)).
Qed.

End LoreFacts.

Section LoreClaims.
Import PyStr PyStrFacts Lore LoreSpec LoreFacts Examples.

Lemma is_code_char_class (d : ascii) :
  is_code_char d = true
  <-> In d (list_ascii_of_string "0123456789abcdefklmnor").
Proof.
  assert (E : is_code_char d
              = existsb (Ascii.eqb d)
                  (list_ascii_of_string "0123456789abcdefklmnor"))
    by (destruct d as [[] [] [] [] [] [] [] []]; reflexivity).
  rewrite E, existsb_exists. split.
  - intros [x [Hin Hx]]. apply Ascii.eqb_eq in Hx. now subst.
  - intros Hin. exists d. split; [exact Hin | apply Ascii.eqb_refl].
Qed.

(** C2.  The description with three decoration codes yields the regular
    match for "Life Regeneration" at level "V" and then the shard entry, in
    that order; a section sign followed by one of 0-9, a-f, k-o, r is
    removed wherever it stands in the text, before the text is split and
    matched. *)
Theorem lore_with_decoration_codes :
  extract_attributes_from_lore life_regeneration_lore
  = [ {| name := "Life Regeneration"; level := "V" |};
      {| name := "Attribute Shard"; level := "N/A" |} ]
  /\ normalized_lore life_regeneration_lore
     = ("Life Regeneration V" ++ String newline "Attribute Shard")%string
  /\ (forall a d b,
         is_code_char d = true ->
         normalized_lore (a ++ code d b)
         = (normalized_lore a ++ normalized_lore b)%string)
  /\ (forall d, is_code_char d = true
                <-> In d (list_ascii_of_string "0123456789abcdefklmnor"))
  /\ (forall item_lore,
         extract_attributes_from_lore item_lore
         = fold_left loop_body (split_lines (normalized_lore item_lore)) []).
Proof.
  split; [reflexivity|]. split; [reflexivity|].
  split; [exact normalized_lore_code|].
  split; [exact is_code_char_class | reflexivity].
Qed.

Lemma lore_with_decoration_codes_witness :
  is_code_char "6" = true
  /\ normalized_lore ("Speed " ++ code "6" "IV") = "Speed IV".
Proof.
  split; [reflexivity|].
  destruct lore_with_decoration_codes as [_ [_ [H _]]].
  exact (H "Speed " "6"%char "IV" eq_refl).
Defined.

(** C3.  A line gives at most one regular entry, the leftmost occurrence of
    an attribute name, a space and a run of roman-numeral characters, so
    "Mana Pool VII Mana Pool IX" gives the single entry Mana Pool / VII; the
    shard test is made on the same line on its own and adds its entry after
    the regular one; the lines are the pieces between newlines, their
    entries follow each other in line order and nothing is removed. *)
Theorem one_regular_match_per_line :
  extract_attributes_from_lore "Mana Pool VII Mana Pool IX"
  = [ {| name := "Mana Pool"; level := "VII" |} ]
  /\ (forall item_lore,
         extract_attributes_from_lore item_lore
         = flat_map (loop_body []) (split_lines (normalized_lore item_lore)))
  /\ (forall line,
         loop_body [] line
         = match attribute_regex_search line with
           | Some (n, numerals) => [ {| name := n; level := numerals |} ]
           | None => []
           end
           ++ (if shard_regex_search line then [shard_entry] else []))
  /\ (forall line,
         shard_regex_search line = true <-> Substring "Attribute Shard" line)
  /\ (forall line n numerals,
         attribute_regex_search line = Some (n, numerals) ->
         exists pre rest,
           line = (pre ++ rest)%string
           /\ MatchAtHead valid_armor_attributes rest n numerals
           /\ forall pre' rest',
                line = (pre' ++ rest')%string ->
                String.length pre' < String.length pre ->
                ~ OccursAtHead valid_armor_attributes rest')
  /\ (forall line,
         attribute_regex_search line = None ->
         forall pre rest,
           line = (pre ++ rest)%string ->
           ~ OccursAtHead valid_armor_attributes rest)
  /\ (forall s,
         String.concat (String newline "") (split_lines s) = s
         /\ Forall newline_free (split_lines s))
  /\ List.length valid_armor_attributes = 16
  /\ extract_attributes_from_lore "Attribute Shard Speed I"
     = [ {| name := "Speed"; level := "I" |}; shard_entry ]
  /\ extract_attributes_from_lore ("Speed I" ++ String newline "Speed I")
     = [ {| name := "Speed"; level := "I" |};
         {| name := "Speed"; level := "I" |} ].
Proof.
  split; [reflexivity|].
  split; [intros; unfold extract_attributes_from_lore;
          now rewrite fold_loop_body|].
  split.
  { intros line. unfold loop_body.
    destruct (attribute_regex_search line) as [[n lv]|];
      now destruct (shard_regex_search line). }
  split; [intros line; apply str_in_spec|].
  split; [exact attribute_regex_search_some|].
  split; [exact attribute_regex_search_none|].
  split; [intros s; split; apply split_lines_join|].
  repeat split; reflexivity.
Qed.

Lemma one_regular_match_per_line_witness :
  attribute_regex_search "Mana Pool VII Mana Pool IX"
  = Some ("Mana Pool", "VII")
  /\ exists pre rest,
       "Mana Pool VII Mana Pool IX" = (pre ++ rest)%string
       /\ MatchAtHead valid_armor_attributes rest "Mana Pool" "VII"
       /\ forall pre' rest',
            "Mana Pool VII Mana Pool IX" = (pre' ++ rest')%string ->
            String.length pre' < String.length pre ->
            ~ OccursAtHead valid_armor_attributes rest'.
Proof.
  split; [reflexivity|].
  destruct one_regular_match_per_line as [_ [_ [_ [_ [H _]]]]].
  exact (H "Mana Pool VII Mana Pool IX" "Mana Pool" "VII" eq_refl).
Defined.

End LoreClaims.

(** ** Fetch *)

Module FetchFacts.
Import Fetch FetchSpec.

Lemma make_item_well_formed (r : raw_item) :
  well_formed r = true -> exists a, make_item r = Returned a.
Proof.
  unfold well_formed, make_item.
  destruct (r_uuid r), (r_item_name r), (r_category r), (r_tier r),
    (r_claimed r), (r_bin r), (r_starting_bid r); try discriminate.
  intros _. simpl. now eexists.
Qed.

Lemma append_items_well_formed (entries : list raw_item) :
  Forall (fun r => well_formed r = true) entries ->
  forall auction_items,
    append_items auction_items entries
    = Returned (auction_items ++ listings entries).
Proof.
  induction 1 as [|r entries Hr _ IH]; intros acc; simpl.
  - now rewrite app_nil_r.
  - destruct (make_item_well_formed r Hr) as [a Ha].
    rewrite Ha. simpl. now rewrite IH, <- app_assoc.
Qed.

Lemma listings_length (entries : list raw_item) :
  Forall (fun r => well_formed r = true) entries ->
  List.length (listings entries) = List.length entries.
Proof.
  induction 1 as [|r entries Hr _ IH]; simpl; [reflexivity|].
  destruct (make_item_well_formed r Hr) as [a Ha].
  rewrite Ha. simpl. now rewrite IH.
Qed.

Lemma listings_app (xs ys : list raw_item) :
  listings (xs ++ ys) = listings xs ++ listings ys.
Proof. unfold listings. now rewrite flat_map_app. Qed.

(** When the budget left is used up by failures, the loop returns the list
    it holds, whatever that list is. *)
Lemma fetch_loop_budget_spent (upstream : server) (budget : nat) :
  forall fuel sent log auction_items page,
    0 < budget -> budget <= fuel ->
    (forall j, j < budget -> upstream (sent + j) page = RequestException) ->
    fetch_loop fuel upstream sent log auction_items page (Z.of_nat budget)
    = Some (mkRun (Returned auction_items) (log ++ repeat page budget)).
Proof.
  induction budget as [|b IH]; intros fuel sent log items page Hpos Hfuel Hf;
    [lia|].
  destruct fuel as [|fuel]; [lia|]. cbn [fetch_loop].
  rewrite <- (Nat.add_0_r sent) at 1. rewrite Hf by lia.
  replace (Z.of_nat (S b) - 1)%Z with (Z.of_nat b) by lia.
  destruct b as [|b].
  - reflexivity.
  - destruct (Z.gtb_spec (Z.of_nat (S b)) 0); [|lia].
    rewrite IH; [| lia | lia |].
    + now rewrite <- app_assoc.
    + intros j Hj. replace (S sent + j) with (sent + S j) by lia.
      apply Hf. lia.
Qed.

Lemma plays_tail (upstream : server) (sent : nat) r (tr : list response) :
  plays upstream sent (r :: tr) ->
  (forall p, upstream sent p = r) /\ plays upstream (S sent) tr.
Proof.
  intros H. split.
  - intros p. rewrite <- (Nat.add_0_r sent). apply (H 0 p). simpl. lia.
  - intros k p Hk. replace (S sent + k) with (sent + S k) by lia.
    apply (H (S k) p). simpl. lia.
Qed.

Lemma plays_app_l (upstream : server) (sent : nat) (tr tr' : list response) :
  plays upstream sent (tr ++ tr') -> plays upstream sent tr.
Proof.
  intros H k p Hk. rewrite (H k p) by (rewrite length_app; lia).
  now apply app_nth1.
Qed.

(** While the responses keep the loop going and leave part of the budget,
    the loop consumes them one by one and accumulates their listings. *)
Lemma fetch_loop_trace (tr : list response) :
  forall (upstream : server) sent log auction_items page retry_attempts fuel,
    plays upstream sent tr ->
    keeps_going page tr ->
    (Z.of_nat (failures tr) < retry_attempts)%Z ->
    exists log' page',
      fetch_loop (List.length tr + fuel) upstream sent log auction_items page
        retry_attempts
      = fetch_loop fuel upstream (sent + List.length tr) log'
          (auction_items ++ accumulated tr) page'
          (retry_attempts - Z.of_nat (failures tr)).
Proof.
  induction tr as [|r tr IH];
    intros upstream sent log items page retry fuel Hplay Hgo Hbudget.
  - exists log, page. simpl.
    now rewrite Nat.add_0_r, app_nil_r, Z.sub_0_r.
  - apply plays_tail in Hplay. destruct Hplay as [Hhead Hplay].
    cbn [List.length Nat.add fetch_loop]. rewrite Hhead.
    destruct r as [|data].
    + cbn [failures] in Hbudget.
      destruct (Z.gtb_spec (retry - 1) 0); [|lia].
      destruct (IH upstream (S sent) (log ++ [page]) items page (retry - 1)%Z
                  fuel Hplay Hgo ltac:(lia)) as [log' [page' E]].
      exists log', page'. rewrite E.
      replace (sent + S (List.length tr)) with (S sent + List.length tr)
        by lia.
      replace (retry - Z.of_nat (failures (RequestException :: tr)))%Z
        with (retry - 1 - Z.of_nat (failures tr))%Z
        by (cbn [failures]; lia).
      reflexivity.
    + destruct Hgo as [[total [entries [Ht [Ha [Hmore Hwf]]]]] Hgo].
      rewrite Ht, Ha. cbn [subscript bind].
      rewrite (append_items_well_formed entries Hwf).
      destruct (Z.ltb_spec (Z.of_nat page + 1) total); [|lia].
      destruct (IH upstream (S sent) (log ++ [page])
                  (items ++ listings entries) (page + 1) retry fuel
                  Hplay Hgo Hbudget) as [log' [page' E]].
      exists log', page'. rewrite E.
      replace (sent + S (List.length tr)) with (S sent + List.length tr)
        by lia.
      cbn [failures accumulated flat_map]. rewrite Ha. cbn [get].
      now rewrite <- app_assoc.
Qed.

Lemma length_flat_map_sum {A B : Type} (f : A -> list B) (l : list A) :
  List.length (flat_map f l) = list_sum (map (fun x => List.length (f x)) l).
Proof.
  induction l as [|x l IH]; simpl; [reflexivity|].
  now rewrite length_app, IH.
Qed.

Section ValidUpstream.

(** A server that answers every request for page [p] with the entries
    [pages p] and the same page count [T], all entries well-formed. *)
Variable upstream : server.
Variable pages : nat -> list raw_item.
Variable T : Z.

Hypothesis upstream_pages :
  forall k p,
    upstream k p
    = Json {| totalPages := Some T; auctions := Some (pages p) |}.

Hypothesis pages_well_formed :
  forall p, Forall (fun r => well_formed r = true) (pages p).

(** From [page], the loop reads [m] pages that announce more and one that
    does not. *)
Lemma fetch_loop_pages (m : nat) :
  forall page sent log auction_items retry_attempts fuel,
    (forall q, page <= q < page + m -> (Z.of_nat q + 1 < T)%Z) ->
    (T <= Z.of_nat (page + m) + 1)%Z ->
    m < fuel ->
    fetch_loop fuel upstream sent log auction_items page retry_attempts
    = Some (mkRun
              (Returned (auction_items
                         ++ listings (flat_map pages (seq page (S m)))))
              (log ++ seq page (S m))).
Proof.
  induction m as [|m IH];
    intros page sent log items retry fuel Hmore Hlast Hfuel;
    (destruct fuel as [|fuel]; [lia|]);
    cbn [fetch_loop]; rewrite upstream_pages; cbn [totalPages auctions
      subscript bind];
    rewrite (append_items_well_formed _ (pages_well_formed page)).
  - destruct (Z.ltb_spec (Z.of_nat page + 1) T);
      [rewrite Nat.add_0_r in Hlast; lia|].
    simpl. now rewrite app_nil_r.
  - destruct (Z.ltb_spec (Z.of_nat page + 1) T);
      [|specialize (Hmore page); lia].
    rewrite IH; [| intros q Hq; apply Hmore; lia
                 | replace (page + 1 + m) with (page + S m) by lia; exact Hlast
                 | lia].
    rewrite Nat.add_1_r. cbn [seq flat_map].
    rewrite (listings_app (pages page)), (app_assoc items).
    now rewrite <- (app_assoc log).
Qed.

(** The whole call: pages 0, 1, ... up to the last announced one, page 0
    being read in any case. *)
Lemma get_auction_items_pages (fuel : nat) :
  Nat.max 1 (Z.to_nat T) <= fuel ->
  get_auction_items fuel upstream
  = Some (mkRun
            (Returned (listings
                         (flat_map pages (seq 0 (Nat.max 1 (Z.to_nat T))))))
            (seq 0 (Nat.max 1 (Z.to_nat T)))).
Proof.
  intros Hfuel. unfold get_auction_items.
  destruct (Nat.max 1 (Z.to_nat T)) as [|m] eqn:Em; [lia|].
  rewrite (fetch_loop_pages m); [reflexivity | | | lia].
  - intros q Hq. lia.
  - lia.
Qed.

End ValidUpstream.

End FetchFacts.

Section FetchClaims.
Import Fetch FetchSpec FetchFacts Cache Examples.

(** C4.  In an execution whose requests are answered by [pre] followed by a
    failure, where the decoded bodies in [pre] keep the loop going and [pre]
    has four failures, the fifth failure spends the budget: the call returns,
    without raising, the listings accumulated from the bodies in [pre], which
    may be none. *)
Theorem fetch_returns_accumulated_on_exhaustion
    (upstream : server) (pre : list response) (fuel : nat) :
  plays upstream 0 (pre ++ [RequestException]) ->
  keeps_going 0 pre ->
  failures pre = 4 ->
  List.length pre < fuel ->
  option_map result (get_auction_items fuel upstream)
  = Some (Returned (accumulated pre)).
Proof.
  intros Hplay Hgo Hfail Hfuel. unfold get_auction_items.
  replace fuel with (List.length pre + S (fuel - S (List.length pre)))
    by lia.
  destruct (fetch_loop_trace pre upstream 0 [] [] 0 5%Z
              (S (fuel - S (List.length pre)))
              (plays_app_l _ _ _ _ Hplay) Hgo ltac:(lia))
    as [log' [page' E]].
  rewrite E, Hfail. cbn [fetch_loop Nat.add].
  assert (Hlast : upstream (List.length pre) page' = RequestException).
  { pose proof (Hplay (List.length pre) page') as H. cbn [Nat.add] in H.
    rewrite H by (rewrite length_app; simpl; lia).
    now rewrite app_nth2, Nat.sub_diag by lia. }
  now rewrite Hlast.
Qed.

Lemma fetch_returns_accumulated_on_exhaustion_witness :
  option_map result (get_auction_items 6 one_page_then_down)
  = Some (Returned
            [ mkAuctionItem "a1" (Some "Aurora Boots") "" "armor" "RARE"
                false true 100%Z ]).
Proof.
  apply (fetch_returns_accumulated_on_exhaustion one_page_then_down
           [ Json {| totalPages := Some 3%Z;
                     auctions := Some [entry_example "a1" "Aurora Boots"] |};
             RequestException; RequestException; RequestException;
             RequestException ] 6).
  - intros k p Hk. simpl in Hk.
    do 6 (destruct k as [|k]; [reflexivity|]). lia.
  - simpl. split; [|exact I].
    exists 3%Z, [entry_example "a1" "Aurora Boots"].
    split; [reflexivity|]. split; [reflexivity|]. split; [lia|].
    repeat constructor.
  - reflexivity.
  - simpl. lia.
Defined.

(** C5.  Against a server that answers every request for page [p] with the
    well-formed entries [pages p] and the same page count [T], pages at or
    beyond [T] being empty, the call asks for pages 0, 1, ... in increasing
    order, returns, and the number of listings returned is the sum of the
    entry counts of pages 0 to [T - 1]. *)
Theorem fetch_counts_every_page
    (upstream : server) (pages : nat -> list raw_item) (T : Z) (fuel : nat) :
  (forall k p,
      upstream k p
      = Json {| totalPages := Some T; auctions := Some (pages p) |}) ->
  (forall p, Forall (fun r => well_formed r = true) (pages p)) ->
  (forall p, (T <= Z.of_nat p)%Z -> pages p = []) ->
  Nat.max 1 (Z.to_nat T) <= fuel ->
  exists items,
    get_auction_items fuel upstream
    = Some (mkRun (Returned items) (seq 0 (Nat.max 1 (Z.to_nat T))))
    /\ List.length items
       = list_sum (map (fun p => List.length (pages p))
                     (seq 0 (Z.to_nat T)))
    /\ items = listings (flat_map pages (seq 0 (Z.to_nat T))).
Proof.
  intros Hup Hwf Hrange Hfuel.
  exists (listings (flat_map pages (seq 0 (Z.to_nat T)))).
  rewrite (get_auction_items_pages upstream pages T Hup Hwf fuel Hfuel).
  split; [|split; [|reflexivity]].
  - destruct (Z.to_nat T) as [|n] eqn:En.
    + simpl. rewrite (Hrange 0) by lia. reflexivity.
    + now replace (Nat.max 1 (S n)) with (S n) by lia.
  - rewrite listings_length, length_flat_map_sum; [reflexivity|].
    apply Forall_flat_map, Forall_forall. intros p _. apply Hwf.
Qed.

Lemma fetch_counts_every_page_witness :
  exists items,
    get_auction_items 2
      (fun _ p => Json {| totalPages := Some 2%Z;
                          auctions := Some (two_pages p) |})
    = Some (mkRun (Returned items) [0; 1])
    /\ List.length items = 3
    /\ items = listings (two_pages 0 ++ two_pages 1 ++ []).
Proof.
  apply (fetch_counts_every_page
           (fun _ p => Json {| totalPages := Some 2%Z;
                               auctions := Some (two_pages p) |})
           two_pages 2%Z 2).
  - reflexivity.
  - intros [|[|p]]; repeat constructor.
  - intros [|[|p]] Hp; [lia | lia | reflexivity].
  - simpl. lia.
Defined.

End FetchClaims.

Section CacheClaims.
Import Fetch FetchSpec FetchFacts Cache Examples.

(** A refresh that returns stores what the fetch returned and the clock
    reading, whatever the fetch went through. *)
Lemma refresh_data_returned fuel upstream now self self' :
  refresh_data fuel upstream now self = Some (Returned self') ->
  last_fetched self' = now
  /\ option_map result (get_auction_items fuel upstream)
     = Some (Returned (cached_items self')).
Proof.
  unfold refresh_data.
  destruct (get_auction_items fuel upstream) as [[[items|e] log]|];
    simpl; intros H; try discriminate.
  injection H as <-. now split.
Qed.

(** Five failed requests in a row end the call with nothing accumulated. *)
Lemma get_auction_items_all_failed fuel upstream :
  (forall k p, k < 5 -> upstream k p = RequestException) ->
  5 <= fuel ->
  get_auction_items fuel upstream = Some (mkRun (Returned []) [0; 0; 0; 0; 0]).
Proof.
  intros Hdown Hfuel. unfold get_auction_items.
  change 5%Z with (Z.of_nat 5).
  rewrite (fetch_loop_budget_spent upstream 5 fuel 0 [] [] 0);
    [reflexivity | lia | exact Hfuel |].
  intros j Hj. now apply Hdown.
Qed.

(** C1, as the code has it.  [refresh_data] stores what the fetch returned,
    whatever that is: it returns exactly when the fetch returns, the service
    then holding the returned list and the clock reading of this refresh and
    nothing of what it held before, and it raises exactly when the fetch
    raises.  In particular, when every request of a fetch cycle fails, the
    fetch returns the empty list and the refresh stores it: the service then
    holds no items and the time of this refresh, whatever it held before,
    and is not stale at that time. *)
Theorem refresh_after_total_failure :
  (forall fuel upstream now self self',
      refresh_data fuel upstream now self = Some (Returned self')
      <-> exists log,
            get_auction_items fuel upstream
            = Some (mkRun (Returned (cached_items self')) log)
            /\ last_fetched self' = now)
  /\ (forall fuel upstream now self e,
         refresh_data fuel upstream now self = Some (Raised e)
         <-> exists log,
               get_auction_items fuel upstream
               = Some (mkRun (Raised e) log))
  /\ (forall fuel upstream now self,
         (forall k p, k < 5 -> upstream k p = RequestException) ->
         5 <= fuel ->
         refresh_data fuel upstream now self
         = Some (Returned {| last_fetched := now; cached_items := [] |})
         /\ is_stale {| last_fetched := now; cached_items := [] |} now
            = false).
Proof.
  split; [|split].
  - intros fuel upstream now self self'. unfold refresh_data.
    destruct (get_auction_items fuel upstream) as [[[items|e] log]|]; simpl.
    + split.
      * intros H. injection H as <-. now exists log.
      * intros [log' [H Ht]]. injection H as -> _.
        destruct self' as [t items']. simpl in Ht. now subst t.
    + split; [discriminate | intros [log' [H _]]; discriminate].
    + split; [discriminate | intros [log' [H _]]; discriminate].
  - intros fuel upstream now self e. unfold refresh_data.
    destruct (get_auction_items fuel upstream) as [[[items|e'] log]|]; simpl.
    + split; [discriminate | intros [log' H]; discriminate].
    + split.
      * intros H. injection H as ->. now exists log.
      * intros [log' H]. now injection H as -> _.
    + split; [discriminate | intros [log' H]; discriminate].
  - intros fuel upstream now self Hdown Hfuel. unfold refresh_data, is_stale.
    rewrite (get_auction_items_all_failed fuel upstream Hdown Hfuel).
    split; [reflexivity|]. simpl. now rewrite Z.sub_diag.
Qed.

Lemma refresh_after_total_failure_witness :
  (refresh_data 5 always_down 400000000%Z holding_one
   = Some (Returned {| last_fetched := 400000000%Z; cached_items := [] |})
   /\ is_stale {| last_fetched := 400000000%Z; cached_items := [] |}
        400000000%Z = false)
  /\ refresh_data 6 one_page_then_down 400000000%Z holding_one
     = Some (Returned
               {| last_fetched := 400000000%Z;
                  cached_items :=
                    [ mkAuctionItem "a1" (Some "Aurora Boots") "" "armor"
                        "RARE" false true 100%Z ] |}).
Proof.
  destruct refresh_after_total_failure as [Hstored [_ Hdown]].
  split.
  - apply (Hdown 5 always_down 400000000%Z holding_one).
    + reflexivity.
    + lia.
  - apply (Hstored 6 one_page_then_down 400000000%Z holding_one).
    exists [0; 1; 1; 1; 1; 1]. split; reflexivity.
Defined.

(** C1, as stated, fails: a refresh whose every request fails does not leave
    the items held before in place. *)
Lemma refresh_after_total_failure_discards :
  ~ (forall fuel upstream now self self',
        (forall k p, upstream k p = RequestException) ->
        refresh_data fuel upstream now self = Some (Returned self') ->
        cached_items self' = cached_items self).
Proof.
  intros H.
  specialize (H 5 always_down 400000000%Z holding_one
                {| last_fetched := 400000000%Z; cached_items := [] |}
                (fun _ _ => eq_refl) eq_refl).
  discriminate H.
Qed.

(** C9.  With the clock past the first five minutes after [datetime.min],
    a service that has never fetched is stale; once a refresh has returned
    with clock reading [t] the service is not stale at [t], and it is stale
    at a later reading exactly when more than five minutes separate that
    reading from [t]. *)
Theorem staleness_cycle fuel upstream t self self' now0 :
  (timedelta_minutes 5 < now0 - datetime_min)%Z ->
  refresh_data fuel upstream t self = Some (Returned self') ->
  is_stale init now0 = true
  /\ is_stale self' t = false
  /\ (forall now,
         is_stale self' now = true <-> (timedelta_minutes 5 < now - t)%Z)
  /\ timedelta_minutes 5 = 300000000%Z.
Proof.
  intros Hclock Href.
  apply refresh_data_returned in Href. destruct Href as [Ht _].
  unfold is_stale. rewrite Ht. repeat split.
  - apply Z.gtb_lt. exact Hclock.
  - rewrite Z.sub_diag. reflexivity.
  - intros H. now apply Z.gtb_lt.
  - intros H. now apply Z.gtb_lt.
Qed.

Lemma staleness_cycle_witness :
  let t := 63000000000000000%Z in
  let after := {| last_fetched := t; cached_items := [] |} in
  refresh_data 5 always_down t init = Some (Returned after)
  /\ is_stale init t = true
  /\ is_stale after t = false
  /\ is_stale after (t + 300000000)%Z = false
  /\ is_stale after (t + 300000001)%Z = true.
Proof.
  intros t after.
  assert (E : refresh_data 5 always_down t init = Some (Returned after))
    by reflexivity.
  destruct (staleness_cycle 5 always_down t init after t
              ltac:(unfold t; reflexivity) E) as [H0 [H1 [H2 _]]].
  split; [exact E|]. split; [exact H0|]. split; [exact H1|].
  split; [reflexivity|].
  apply H2. unfold t. reflexivity.
Defined.

End CacheClaims.

(** * Further properties *)

(** ** Fetch: missing keys, absorbed failures, endless pagination *)

Module FetchMore.
Import Fetch FetchSpec FetchFacts MoreSpec.

Lemma first_missing_well_formed (r : raw_item) :
  first_missing r = None <-> well_formed r = true.
Proof.
  unfold first_missing, well_formed.
  destruct (r_uuid r), (r_item_name r), (r_category r), (r_tier r),
    (r_claimed r), (r_bin r), (r_starting_bid r);
    split; intros H; try discriminate H; reflexivity.
Qed.

Lemma make_item_first_missing (r : raw_item) (key : string) :
  first_missing r = Some key -> make_item r = Raised (KeyError key).
Proof.
  unfold first_missing, make_item.
  destruct (r_uuid r), (r_item_name r), (r_category r), (r_tier r),
    (r_claimed r), (r_bin r), (r_starting_bid r);
    intros H; try discriminate H; now injection H as <-.
Qed.


(** The loop over the entries stops at the first entry that lacks a key. *)
Lemma append_items_first_bad (entries : list raw_item) (key : string) :
  first_bad entries = Some key ->
  forall auction_items,
    append_items auction_items entries = Raised (KeyError key).
Proof.
  induction entries as [|r entries IH]; simpl; [discriminate|].
  destruct (first_missing r) as [k|] eqn:Er.
  - intros H acc. injection H as ->.
    now rewrite (make_item_first_missing r key Er).
  - intros H acc. apply first_missing_well_formed in Er.
    destruct (make_item_well_formed r Er) as [a Ha]. rewrite Ha. simpl.
    now apply IH.
Qed.

Lemma asked_app (a b : list response) :
  forall page,
    asked page (a ++ b) = asked page a ++ asked (page + successes a) b.
Proof.
  induction a as [|r a IH]; intros page; simpl.
  - now rewrite Nat.add_0_r.
  - destruct r; simpl; rewrite IH; [reflexivity|].
    now replace (page + 1 + successes a) with (page + S (successes a))
      by lia.
Qed.


(** The loop on a run of responses that keep it going, with the requests it
    sends and the page it reaches. *)
Lemma fetch_loop_trace_log (tr : list response) :
  forall (upstream : server) sent log auction_items page retry_attempts fuel,
    plays upstream sent tr ->
    keeps_going page tr ->
    (Z.of_nat (failures tr) < retry_attempts)%Z ->
    fetch_loop (List.length tr + fuel) upstream sent log auction_items page
      retry_attempts
    = fetch_loop fuel upstream (sent + List.length tr)
        (log ++ asked page tr) (auction_items ++ accumulated tr)
        (page + successes tr) (retry_attempts - Z.of_nat (failures tr)).
Proof.
  induction tr as [|r tr IH];
    intros upstream sent log items page retry fuel Hplay Hgo Hbudget.
  - simpl. now rewrite !Nat.add_0_r, !app_nil_r, Z.sub_0_r.
  - apply plays_tail in Hplay. destruct Hplay as [Hhead Hplay].
    cbn [List.length Nat.add fetch_loop]. rewrite Hhead.
    replace (sent + S (List.length tr)) with (S sent + List.length tr)
      by lia.
    destruct r as [|data].
    + cbn [failures] in Hbudget.
      destruct (Z.gtb_spec (retry - 1) 0); [|lia].
      rewrite (IH upstream (S sent) (log ++ [page]) items page (retry - 1)%Z
                 fuel Hplay Hgo ltac:(lia)).
      cbn [failures successes asked accumulated flat_map app].
      rewrite <- app_assoc. cbn [app].
      replace (retry - 1 - Z.of_nat (failures tr))%Z
        with (retry - Z.of_nat (S (failures tr)))%Z by lia.
      reflexivity.
    + destruct Hgo as [[total [entries [Ht [Ha [Hmore Hwf]]]]] Hgo].
      rewrite Ht, Ha. cbn [subscript bind].
      rewrite (append_items_well_formed entries Hwf).
      destruct (Z.ltb_spec (Z.of_nat page + 1) total); [|lia].
      rewrite (IH upstream (S sent) (log ++ [page])
                 (items ++ listings entries) (page + 1) retry fuel
                 Hplay Hgo Hbudget).
      cbn [failures successes asked accumulated flat_map].
      rewrite Ha. cbn [get]. rewrite <- !app_assoc. cbn [app].
      replace (page + 1 + successes tr) with (page + S (successes tr))
        by lia.
      reflexivity.
Qed.

(** One turn of the loop on a body with a missing key. *)
Lemma fetch_loop_step_error (upstream : server) sent log auction_items page
    retry_attempts fuel data key :
  upstream sent page = Json data ->
  page_error data = Some key ->
  fetch_loop (S fuel) upstream sent log auction_items page retry_attempts
  = Some (mkRun (Raised (KeyError key)) (log ++ [page])).
Proof.
  intros Hup Herr. cbn [fetch_loop]. rewrite Hup.
  unfold page_error in Herr.
  destruct (totalPages data) as [total|]; simpl.
  - destruct (auctions data) as [entries|]; simpl.
    + now rewrite (append_items_first_bad entries key Herr).
    + now injection Herr as <-.
  - now injection Herr as <-.
Qed.


(** The call on responses [pre] that keep the loop going and leave part of
    the budget, up to the turn that reads the response after them. *)
Lemma get_auction_items_after (upstream : server) (pre : list response)
    (last : response) (fuel : nat) :
  plays upstream 0 (pre ++ [last]) ->
  keeps_going 0 pre ->
  failures pre <= 4 ->
  List.length pre < fuel ->
  upstream (List.length pre) (successes pre) = last
  /\ get_auction_items fuel upstream
     = fetch_loop (S (fuel - S (List.length pre))) upstream (List.length pre)
         (asked 0 pre) (accumulated pre) (successes pre)
         (5 - Z.of_nat (failures pre)).
Proof.
  intros Hplay Hgo Hfail Hfuel. split.
  - pose proof (Hplay (List.length pre) (successes pre)) as H.
    cbn [Nat.add] in H. rewrite H by (rewrite length_app; simpl; lia).
    now rewrite app_nth2, Nat.sub_diag by lia.
  - unfold get_auction_items.
    replace fuel with (List.length pre + S (fuel - S (List.length pre)))
      at 1 by lia.
    now rewrite (fetch_loop_trace_log pre upstream 0 [] [] 0 5%Z _
                   (plays_app_l _ _ _ _ Hplay) Hgo ltac:(lia)).
Qed.

End FetchMore.

Section FetchExtras.
Import Fetch FetchSpec FetchFacts MoreSpec FetchMore Examples MoreExamples.

(** X1.  When the loop, still running with part of its budget left, reads a
    decoded body that lacks "totalPages" or "auctions", or one of whose
    entries lacks a key that [AuctionItem(...)] subscripts, the call raises
    [KeyError] on the first such key: it returns no list, and the listings
    accumulated from the earlier pages are lost with it. *)
Theorem fetch_raises_on_missing_key
    (upstream : server) (pre : list response) (data : page_data)
    (key : string) (fuel : nat) :
  plays upstream 0 (pre ++ [Json data]) ->
  keeps_going 0 pre ->
  failures pre <= 4 ->
  page_error data = Some key ->
  List.length pre < fuel ->
  get_auction_items fuel upstream
  = Some (mkRun (Raised (KeyError key)) (asked 0 (pre ++ [Json data]))).
Proof.
  intros Hplay Hgo Hfail Herr Hfuel.
  destruct (get_auction_items_after upstream pre (Json data) fuel
              Hplay Hgo Hfail Hfuel) as [Hlast ->].
  rewrite (fetch_loop_step_error _ _ _ _ _ _ _ data key Hlast Herr).
  now rewrite asked_app.
Qed.

Lemma fetch_raises_on_missing_key_witness :
  get_auction_items 3 page_then_missing_tier
  = Some (mkRun (Raised (KeyError "tier")) [0; 1; 1]).
Proof.
  apply (fetch_raises_on_missing_key page_then_missing_tier
           [ Json {| totalPages := Some 3%Z;
                     auctions := Some [entry_example "a1" "Aurora Boots"] |};
             RequestException ]
           {| totalPages := Some 3%Z;
              auctions := Some [entry_example "a2" "Molten Belt";
                                entry_without_tier] |}
           "tier" 3).
  - intros k p Hk. simpl in Hk.
    do 3 (destruct k as [|k]; [reflexivity|]). lia.
  - simpl. split; [|exact I].
    exists 3%Z, [entry_example "a1" "Aurora Boots"].
    split; [reflexivity|]. split; [reflexivity|]. split; [lia|].
    repeat constructor.
  - simpl. lia.
  - reflexivity.
  - simpl. lia.
Defined.



(** X3.  Nothing bounds the number of pages: against a server whose every
    answer is a well-formed body announcing a page beyond the one asked, the
    loop never ends, whatever the number of requests allowed. *)
Theorem fetch_never_ends (upstream : server) :
  (forall k p, exists data,
        upstream k p = Json data /\ keeps_going p [Json data]) ->
  forall fuel, get_auction_items fuel upstream = None.
Proof.
  intros Hup fuel. unfold get_auction_items.
  generalize 0 at 1 as sent. generalize (@nil nat) as log.
  generalize (@nil AuctionItem) as items. generalize 0 as page.
  generalize 5%Z as retry.
  induction fuel as [|fuel IH]; intros retry page items log sent;
    [reflexivity|].
  cbn [fetch_loop].
  destruct (Hup sent page)
    as [data [-> [[total [entries [Ht [Ha [Hmore Hwf]]]]] _]]].
  rewrite Ht, Ha. cbn [subscript bind].
  rewrite (append_items_well_formed entries Hwf).
  destruct (Z.ltb_spec (Z.of_nat page + 1) total); [|lia].
  apply IH.
Qed.

Lemma fetch_never_ends_witness :
  get_auction_items 1000 always_one_more = None.
Proof.
  apply (fetch_never_ends always_one_more).
  intros k p. eexists. split; [reflexivity|].
  simpl. split; [|exact I].
  exists (Z.of_nat p + 2)%Z, [].
  split; [reflexivity|]. split; [reflexivity|]. split; [lia|]. constructor.
Defined.

End FetchExtras.

(** ** Lore parser: shape of the output, normalization, lines *)

Module LoreMore.
Import PyStr PyStrFacts Lore LoreSpec LoreFacts MoreSpec.

Lemma loop_body_entries (line : string) (e : AttributeMatch) :
  In e (loop_body [] line) -> e = shard_entry \/ regular_entry e.
Proof.
  unfold loop_body.
  destruct (attribute_regex_search line) as [[n lv]|] eqn:Es;
    destruct (shard_regex_search line); simpl;
    intros H; repeat (destruct H as [H|H]); try contradiction;
    try (left; now symmetry);
    right; subst e;
    destruct (attribute_regex_search_some line n lv Es)
      as [pre [rest [_ [[Hin [Hne [Hr _]]] _]]]];
    now repeat split.
Qed.

Lemma loop_body_length (line : string) :
  List.length (loop_body [] line) <= 2.
Proof.
  unfold loop_body.
  destruct (attribute_regex_search line) as [[n lv]|];
    destruct (shard_regex_search line); simpl; lia.
Qed.

Lemma extract_entries (item_lore : string) (e : AttributeMatch) :
  In e (extract_attributes_from_lore item_lore) ->
  e = shard_entry \/ regular_entry e.
Proof.
  unfold extract_attributes_from_lore. rewrite fold_loop_body. simpl.
  rewrite in_flat_map. intros [line [_ H]].
  exact (loop_body_entries line e H).
Qed.

Lemma flat_map_length_le {A B : Type} (f : A -> list B) (k : nat)
    (l : list A) :
  (forall x, List.length (f x) <= k) ->
  List.length (flat_map f l) <= k * List.length l.
Proof.
  intros Hf. induction l as [|x l IH]; simpl; [lia|].
  rewrite length_app. specialize (Hf x). nia.
Qed.

Lemma flat_map_nil {A B : Type} (f : A -> list B) (l : list A) :
  flat_map f l = [] <-> forall x, In x l -> f x = [].
Proof.
  induction l as [|x l IH]; simpl.
  - split; [intros _ y [] | reflexivity].
  - split.
    + intros H. apply app_eq_nil in H. destruct H as [Hx Hl].
      intros y [<-|Hy]; [exact Hx | now apply IH].
    + intros H. rewrite (H x (or_introl eq_refl)). simpl.
      apply IH. intros y Hy. apply H. now right.
Qed.

(** The search fails exactly when the pattern occurs nowhere in the line. *)
Lemma attribute_regex_search_none_iff (line : string) :
  attribute_regex_search line = None
  <-> forall pre rest,
        line = (pre ++ rest)%string ->
        ~ OccursAtHead valid_armor_attributes rest.
Proof.
  split; [exact (attribute_regex_search_none line)|].
  intros H. destruct (attribute_regex_search line) as [[n lv]|] eqn:Es;
    [|reflexivity].
  destruct (attribute_regex_search_some line n lv Es)
    as [pre [rest [Hl [Hm _]]]].
  elim (H pre rest Hl). exact (MatchAtHead_occurs _ _ _ _ Hm).
Qed.

Lemma loop_body_nil (line : string) :
  loop_body [] line = []
  <-> attribute_regex_search line = None /\ shard_regex_search line = false.
Proof.
  unfold loop_body.
  destruct (attribute_regex_search line) as [[n lv]|];
    destruct (shard_regex_search line); simpl;
    split; try discriminate; try (intros [H1 H2]; discriminate);
    try reflexivity; now split.
Qed.

(** A character other than the section sign is copied. *)
Lemma normalized_lore_skip (c : ascii) (tl : string) :
  c <> section_sign ->
  normalized_lore (String c tl) = String c (normalized_lore tl).
Proof.
  intros Hc. destruct tl as [|d rest]; [reflexivity|].
  rewrite normalized_lore_pair.
  destruct (Ascii.eqb_spec c section_sign); [contradiction | reflexivity].
Qed.

(** A character that is neither the section sign nor of the class cannot
    be part of a code: the text is normalized on either side of it. *)
Lemma normalized_lore_barrier (x : ascii) (b : string) :
  x <> section_sign -> is_code_char x = false ->
  forall a,
    normalized_lore (a ++ String x b)
    = (normalized_lore a ++ String x (normalized_lore b))%string.
Proof.
  intros Hx Hclass a.
  assert (G : forall n a, String.length a <= n ->
            normalized_lore (a ++ String x b)
            = (normalized_lore a ++ String x (normalized_lore b))%string).
  { clear a. induction n as [|n IH]; intros a Hlen.
    - destruct a; [|simpl in Hlen; lia]. cbn [append].
      now apply normalized_lore_skip.
    - destruct a as [|c [|e a]]; cbn [append].
      + now apply normalized_lore_skip.
      + rewrite normalized_lore_pair, Hclass, andb_false_r.
        now rewrite (normalized_lore_skip x b Hx).
      + simpl in Hlen. rewrite !normalized_lore_pair.
        destruct (Ascii.eqb c section_sign && is_code_char e).
        * apply IH. lia.
        * change (String e (a ++ String x b))
            with (String e a ++ String x b)%string.
          rewrite IH by (simpl; lia). reflexivity. }
  now apply (G (String.length a)).
Qed.

Lemma normalized_lore_length (s : string) :
  String.length (normalized_lore s) <= String.length s.
Proof.
  assert (G : forall n s, String.length s <= n ->
            String.length (normalized_lore s) <= String.length s).
  { clear s. induction n as [|n IH]; intros s Hlen.
    - destruct s; [simpl; lia | simpl in Hlen; lia].
    - destruct s as [|c [|d s]]; [simpl; lia | simpl; lia |].
      rewrite normalized_lore_pair. simpl in Hlen.
      destruct (Ascii.eqb c section_sign && is_code_char d).
      + specialize (IH s ltac:(lia)). simpl. lia.
      + specialize (IH (String d s) ltac:(simpl; lia)).
        cbn [String.length] in *. lia. }
  now apply (G (String.length s)).
Qed.

Lemma split_lines_newline (x y : string) :
  split_lines (x ++ String newline y) = split_lines x ++ split_lines y.
Proof.
  induction x as [|c x IH]; cbn [append split_lines].
  - now rewrite Ascii.eqb_refl.
  - destruct (Ascii.eqb c newline); rewrite IH; [reflexivity|].
    destruct (split_lines_join x) as [_ [_ Hne]].
    destruct (split_lines x) as [|l ls]; [now elim Hne | reflexivity].
Qed.

End LoreMore.

Section LoreExtras.
Import PyStr PyStrFacts Lore LoreSpec LoreFacts MoreSpec LoreMore Examples.

(** X4.  Whatever the description, every extracted entry is either the shard
    entry or a name of the attribute vocabulary with a level made of one or
    more roman-numeral characters, and there are at most two entries per
    line of the normalized text. *)
Theorem extracted_entries_shape (item_lore : string) :
  (forall e, In e (extract_attributes_from_lore item_lore) ->
             e = shard_entry \/ regular_entry e)
  /\ List.length (extract_attributes_from_lore item_lore)
     <= 2 * List.length (split_lines (normalized_lore item_lore)).
Proof.
  split; [exact (extract_entries item_lore)|].
  unfold extract_attributes_from_lore. rewrite fold_loop_body. cbn [app].
  apply flat_map_length_le. exact loop_body_length.
Qed.

Lemma extracted_entries_shape_witness :
  {| name := "Speed"; level := "IV" |} = shard_entry
  \/ regular_entry {| name := "Speed"; level := "IV" |}.
Proof.
  apply (proj1 (extracted_entries_shape
                  ("Attribute Shard" ++ String newline "Speed IV 12"))).
  simpl. right. left. reflexivity.
Defined.

(** X5.  Normalization never lengthens the text, and a text without any
    section sign comes out unchanged. *)
Theorem normalized_lore_plain_text (s : string) :
  String.length (normalized_lore s) <= String.length s
  /\ (section_free s -> normalized_lore s = s).
Proof.
  split; [apply normalized_lore_length|].
  induction s as [|c s IH]; [reflexivity|].
  intros [Hc Hs]. rewrite (normalized_lore_skip c s Hc). now rewrite IH.
Qed.

Lemma normalized_lore_plain_text_witness :
  normalized_lore "Mana Pool VII" = "Mana Pool VII".
Proof.
  apply (proj2 (normalized_lore_plain_text "Mana Pool VII")).
  simpl. repeat split; discriminate.
Defined.

(** X6.  The substitution makes a single pass: when a section sign stands
    before a code that is followed by a class character, the code is removed
    and the section sign and that character are left side by side, so the
    normalized text starts with a code, and normalizing again would change
    it. *)
Theorem normalization_single_pass (c d : ascii) (s : string) :
  is_code_char c = true ->
  is_code_char d = true ->
  normalized_lore (String section_sign (code c (String d s)))
  = code d (normalized_lore s)
  /\ normalized_lore
       (normalized_lore (String section_sign (code c (String d s))))
     <> normalized_lore (String section_sign (code c (String d s))).
Proof.
  intros Hc Hd.
  assert (Hd' : d <> section_sign) by (intros ->; discriminate Hd).
  assert (E : normalized_lore (String section_sign (code c (String d s)))
              = code d (normalized_lore s)).
  { unfold code. rewrite normalized_lore_pair.
    replace (is_code_char section_sign) with false by reflexivity.
    rewrite andb_false_r, normalized_lore_pair, Ascii.eqb_refl, Hc.
    cbn [andb]. now rewrite (normalized_lore_skip d s Hd'). }
  split; [exact E|]. rewrite E. unfold code at 1.
  rewrite normalized_lore_pair, Ascii.eqb_refl, Hd. cbn [andb].
  intros H. apply (f_equal String.length) in H.
  pose proof (normalized_lore_length (normalized_lore s)) as Hlen.
  unfold code in H. cbn [String.length] in H. lia.
Qed.

Lemma normalization_single_pass_witness :
  normalized_lore (String section_sign (code "a" "bSpeed I")) = code "b" "Speed I"
  /\ normalized_lore
       (normalized_lore (String section_sign (code "a" "bSpeed I")))
     <> normalized_lore (String section_sign (code "a" "bSpeed I")).
Proof.
  exact (normalization_single_pass "a" "b" "Speed I" eq_refl eq_refl).
Defined.

(** X7.  Extraction works line by line: cutting a description at a newline
    and extracting from the two parts gives the entries of the whole, in
    order.  No decoration code reaches across a newline. *)
Theorem extraction_splits_at_newline (a b : string) :
  extract_attributes_from_lore (a ++ String newline b)
  = extract_attributes_from_lore a ++ extract_attributes_from_lore b.
Proof.
  unfold extract_attributes_from_lore.
  rewrite (normalized_lore_barrier newline b);
    [|discriminate | reflexivity].
  rewrite split_lines_newline, !fold_loop_body. simpl.
  apply flat_map_app.
Qed.

(** X8.  Nothing is extracted exactly when no line of the normalized text
    holds, at any position, an attribute name followed by a space and a
    roman-numeral character, and no line holds "Attribute Shard": a level
    that does not begin with such a character drops the attribute without
    any error. *)
Theorem extraction_empty_iff (item_lore : string) :
  extract_attributes_from_lore item_lore = []
  <-> forall line,
        In line (split_lines (normalized_lore item_lore)) ->
        (forall pre rest,
            line = (pre ++ rest)%string ->
            ~ OccursAtHead valid_armor_attributes rest)
        /\ ~ Substring "Attribute Shard" line.
Proof.
  unfold extract_attributes_from_lore. rewrite fold_loop_body. simpl.
  rewrite flat_map_nil.
  split; intros H line Hin; specialize (H line Hin).
  - apply loop_body_nil in H. destruct H as [Hs Hsh]. split.
    + now apply attribute_regex_search_none_iff.
    + intros Hsub. apply str_in_spec in Hsub.
      unfold shard_regex_search in Hsh. congruence.
  - destruct H as [Hs Hsh]. apply loop_body_nil. split.
    + now apply attribute_regex_search_none_iff.
    + unfold shard_regex_search.
      destruct (str_in "Attribute Shard" line) eqn:E; [|reflexivity].
      elim Hsh. now apply str_in_spec.
Qed.

Lemma extraction_empty_iff_witness :
  (forall pre rest,
      "Speed iv" = (pre ++ rest)%string ->
      ~ OccursAtHead valid_armor_attributes rest)
  /\ ~ Substring "Attribute Shard" "Speed iv".
Proof.
  apply (proj1 (extraction_empty_iff
                  ("Mana Pool 7" ++ String newline "Speed iv"))
           eq_refl "Speed iv").
  simpl. right. left. reflexivity.
Defined.

End LoreExtras.

(** ** Filter: multiplicity, the equipment and shard tests, longer names *)

Module FilterMore.
Import PyStr PyStrFacts MoreSpec.

Lemma append_assoc_str (a b c : string) :
  ((a ++ b) ++ c)%string = (a ++ b ++ c)%string.
Proof. induction a as [|x a IH]; simpl; [reflexivity | now rewrite IH]. Qed.

Lemma Substring_embed (w n pre post : string) :
  Substring w n -> Substring w (pre ++ n ++ post).
Proof.
  intros [a [b ->]]. exists (pre ++ a)%string, (b ++ post)%string.
  now rewrite !append_assoc_str.
Qed.

Lemma ContainsCI_embed (w n pre post : string) :
  ContainsCI n w -> ContainsCI (pre ++ n ++ post) w.
Proof.
  intros [a [mid [b [-> Hmid]]]].
  exists (pre ++ a)%string, mid, (b ++ post)%string.
  split; [|exact Hmid]. now rewrite !append_assoc_str.
Qed.

Lemma any_lower_in_embed (words : list string) (n pre post : string) :
  any_lower_in words n = true ->
  any_lower_in words (pre ++ n ++ post) = true.
Proof.
  rewrite !any_lower_in_spec. intros [w [Hin H]].
  exists w. split; [exact Hin | now apply ContainsCI_embed].
Qed.

Lemma count_occ_filter (f : AuctionItem -> bool) (l : list AuctionItem)
    (x : AuctionItem) :
  count_occ AuctionItem_eq_dec (filter f l) x
  = if f x then count_occ AuctionItem_eq_dec l x else 0.
Proof.
  induction l as [|a l IH]; simpl; [now destruct (f x)|].
  destruct (f a) eqn:Ea; simpl;
    destruct (AuctionItem_eq_dec a x) as [->|Hne]; rewrite IH;
    try rewrite Ea; reflexivity.
Qed.

End FilterMore.

Section FilterExtras.
Import PyStr PyStrFacts MoreSpec FilterMore.

(** X9.  In the list computed from any cache, an item occurs as many times
    as it occurs in the cache, once for each of the three conditions it
    satisfies: nothing is merged across the branches and nothing is invented. *)
Theorem filter_lists_once_per_branch
    (cached_items : list AuctionItem) (it : AuctionItem) :
  count_occ AuctionItem_eq_dec (filter_cached cached_items) it
  = count_occ AuctionItem_eq_dec cached_items it
    * (Nat.b2n (armor_cond it) + Nat.b2n (equipment_cond it)
       + Nat.b2n (shard_cond it)).
Proof.
  unfold filter_cached, armors, equipments, shards.
  rewrite !count_occ_app, !count_occ_filter.
  destruct (armor_cond it), (equipment_cond it), (shard_cond it); simpl; lia.
Qed.

(** X10.  On an item with the fixed-price flag set, the equipment condition
    holds exactly when the name contains one of the four equipment names up
    to case, and the shard condition exactly when it contains "Attribute
    Shard" in that very case: the shard test, unlike the two others, does
    not lower-case, so "ATTRIBUTE SHARD" is not a shard. *)
Theorem equipment_and_shard_conditions :
  (forall u n l c t cl s,
      equipment_cond (mkAuctionItem u (Some n) l c t cl true s) = true
      <-> exists e, In e valid_equipments /\ ContainsCI n e)
  /\ (forall u n l c t cl s,
         shard_cond (mkAuctionItem u (Some n) l c t cl true s) = true
         <-> Substring "Attribute Shard" n)
  /\ List.length valid_equipments = 4
  /\ (forall u l c t cl s,
         shard_cond (mkAuctionItem u (Some "ATTRIBUTE SHARD") l c t cl true s)
         = false)
  /\ ContainsCI "ATTRIBUTE SHARD" "Attribute Shard".
Proof.
  split; [|split; [|split; [reflexivity|split; [reflexivity|]]]].
  - intros u n l c t cl s. rewrite <- any_lower_in_spec.
    fold (matches_equipment_name n). rewrite equipment_cond_true. simpl.
    split.
    + intros [m [Hm [_ [He _]]]]. now injection Hm as <-.
    + intros He. exists n. repeat split; trivial.
      intros ->. discriminate He.
  - intros u n l c t cl s. rewrite <- str_in_spec, shard_cond_true. simpl.
    split.
    + intros [m [Hm [_ [Hs _]]]]. now injection Hm as <-.
    + intros Hs. exists n. repeat split; trivial.
      intros ->. discriminate Hs.
  - exists "", "ATTRIBUTE SHARD", "". split; reflexivity.
Qed.

(** X11.  The four name tests look for their words anywhere in the name, so a
    name that passes one still passes it with any text put before or after
    it. *)
Theorem name_tests_survive_embedding (pre n post : string) :
  (matches_armor_name n = true ->
   matches_armor_name (pre ++ n ++ post) = true)
  /\ (matches_armor_piece n = true ->
      matches_armor_piece (pre ++ n ++ post) = true)
  /\ (matches_equipment_name n = true ->
      matches_equipment_name (pre ++ n ++ post) = true)
  /\ (str_in "Attribute Shard" n = true ->
      str_in "Attribute Shard" (pre ++ n ++ post) = true).
Proof.
  repeat split; try apply any_lower_in_embed.
  rewrite !str_in_spec. apply Substring_embed.
Qed.

Lemma name_tests_survive_embedding_witness :
  matches_armor_name "Ancient Terror Boots +10" = true
  /\ matches_armor_piece "Ancient Terror Boots +10" = true.
Proof.
  destruct (name_tests_survive_embedding "Ancient " "Terror Boots" " +10")
    as [Ha [Hp _]].
  split; [exact (Ha eq_refl) | exact (Hp eq_refl)].
Defined.

End FilterExtras.

(** ** Cache and endpoint: which source a call reads, what a refresh leaves *)

Module CacheMore.
Import Fetch FetchSpec FetchFacts MoreSpec FetchMore Cache Endpoint.


Lemma filter_items_of_fetch fuel upstream now now' self r :
  is_stale self now = true ->
  get_auction_items fuel upstream = Some r ->
  filter_items fuel upstream now now' self
  = Some (items <- result r ;;
          Returned ({| last_fetched := now'; cached_items := items |},
                    filter_cached items)).
Proof.
  intros Hstale Hfetch. unfold filter_items, refresh_data.
  rewrite Hstale, Hfetch. now destruct (result r).
Qed.



Lemma filter_cached_named_bin (items : list AuctionItem) (it : AuctionItem) :
  In it (filter_cached items) ->
  (exists n, item_name it = Some n /\ n <> "") /\ bin_status it = true.
Proof.
  intros Hin. apply in_filter_cached in Hin.
  destruct Hin as [_ [Hc | [Hc | Hc]]].
  - apply armor_cond_true in Hc. destruct Hc as [n [Hn [Hne [_ [_ Hb]]]]].
    split; [now exists n | exact Hb].
  - apply equipment_cond_true in Hc. destruct Hc as [n [Hn [Hne [_ Hb]]]].
    split; [now exists n | exact Hb].
  - apply shard_cond_true in Hc. destruct Hc as [n [Hn [Hne [_ Hb]]]].
    split; [now exists n | exact Hb].
Qed.

End CacheMore.

Section CacheExtras.
Import Fetch FetchSpec FetchFacts MoreSpec FetchMore Cache Endpoint CacheMore.
Import Lore LoreMore Examples MoreExamples.





(** X14.  When the refresh of a stale cache meets a body with a missing key,
    the [KeyError] passes through [refresh_data], [filter_items] and the
    endpoint: the request gets no list. *)
Theorem endpoint_raises_on_missing_key
    (upstream : server) (pre : list response) (data : page_data)
    (key : string) fuel now now' self :
  is_stale self now = true ->
  plays upstream 0 (pre ++ [Json data]) ->
  keeps_going 0 pre ->
  failures pre <= 4 ->
  page_error data = Some key ->
  List.length pre < fuel ->
  get_filtered_items fuel upstream now now' self
  = Some (Raised (KeyError key)).
Proof.
  intros Hstale Hplay Hgo Hfail Herr Hfuel.
  destruct (get_auction_items_after upstream pre (Json data) fuel
              Hplay Hgo Hfail Hfuel) as [Hlast Hrun].
  rewrite (fetch_loop_step_error _ _ _ _ _ _ _ data key Hlast Herr) in Hrun.
  unfold get_filtered_items.
  now rewrite (filter_items_of_fetch _ _ _ _ _ _ Hstale Hrun).
Qed.

Lemma endpoint_raises_on_missing_key_witness :
  get_filtered_items 3 page_then_missing_tier 63000000000000000%Z
    63000000000000000%Z init
  = Some (Raised (KeyError "tier")).
Proof.
  apply (endpoint_raises_on_missing_key page_then_missing_tier
           [ Json {| totalPages := Some 3%Z;
                     auctions := Some [entry_example "a1" "Aurora Boots"] |};
             RequestException ]
           {| totalPages := Some 3%Z;
              auctions := Some [entry_example "a2" "Molten Belt";
                                entry_without_tier] |}
           "tier" 3).
  - reflexivity.
  - intros k p Hk. simpl in Hk.
    do 3 (destruct k as [|k]; [reflexivity|]). lia.
  - simpl. split; [|exact I].
    exists 3%Z, [entry_example "a1" "Aurora Boots"].
    split; [reflexivity|]. split; [reflexivity|]. split; [lia|].
    repeat constructor.
  - simpl. lia.
  - reflexivity.
  - simpl. lia.
Defined.

(** X15.  Every dictionary of a list the endpoint hands to [jsonify] comes
    from a cached item, has the fixed-price flag set and a name that is
    present and not empty, and its attributes are shard entries or
    vocabulary names with roman-numeral levels; the dictionaries stand in
    the order of the filtered list. *)
Theorem endpoint_response_shape
    fuel upstream now now' self self' resp :
  get_filtered_items fuel upstream now now' self
  = Some (Returned (self', resp)) ->
  resp = map response_of (filter_cached (cached_items self'))
  /\ forall j, In j resp ->
       (exists item, In item (cached_items self') /\ j = response_of item)
       /\ j_bin_status j = true
       /\ (exists n, j_name j = Some n /\ n <> "")
       /\ forall e, In e (j_attributes j) ->
                    e = shard_entry \/ regular_entry e.
Proof.
  intros H. unfold get_filtered_items in H.
  destruct (filter_items fuel upstream now now' self) as [[[s res]|e]|] eqn:Ef;
    simpl in H; try discriminate.
  injection H as <- <-.
  apply filter_items_result in Ef. subst res.
  split; [reflexivity|].
  intros j Hj. apply in_map_iff in Hj. destruct Hj as [item [<- Hin]].
  destruct (filter_cached_named_bin _ _ Hin) as [Hname Hbin].
  apply in_filter_cached in Hin. destruct Hin as [Hin _].
  split; [now exists item|]. split; [exact Hbin|]. split; [exact Hname|].
  intros e He. exact (extract_entries _ e He).
Qed.

Lemma endpoint_response_shape_witness :
  let self := {| last_fetched := 100%Z; cached_items := [lore_example] |} in
  get_filtered_items 0 always_down 200%Z 200%Z self
  = Some (Returned (self, [response_of lore_example]))
  /\ j_attributes (response_of lore_example)
     = [ {| name := "Mana Pool"; level := "II" |}; shard_entry ]
  /\ forall j, In j [response_of lore_example] ->
       j_bin_status j = true /\ exists n, j_name j = Some n /\ n <> "".
Proof.
  intros self.
  assert (E : get_filtered_items 0 always_down 200%Z 200%Z self
              = Some (Returned (self, [response_of lore_example])))
    by reflexivity.
  split; [exact E|]. split; [reflexivity|].
  intros j Hj.
  destruct (proj2 (endpoint_response_shape _ _ _ _ _ _ _ E) j Hj)
    as [_ [Hb [Hn _]]].
  now split.
Defined.

End CacheExtras.
